(** * GlobalSight: streaming assembly, section parser and follow-up chat

    A shallow embedding of the client's core logic:
    - [services/geminiService.ts]: [extractErrorMessage], the construction of
      the request parts and the two streaming loops;
    - [App.tsx]: [handleAnalyze] (context capture) and [handleSendMessage];
    - [components/AnalysisDisplay.tsx]: the [sections] markdown parser and the
      source de-duplication of [renderGrounding].

    JavaScript strings are sequences of UTF-16 code units and are modelled as
    [list N]; every string method used by the code works on code units. *)

From Stdlib Require Import Strings.String Strings.Ascii Numbers.DecimalString.
From Stdlib Require Import List Sorted NArith ZArith Bool Lia.
Import ListNotations.

(* ===================================================================== *)
(** ** JavaScript strings *)
(* ===================================================================== *)

Module JsString.

Definition jsstring := list N.

(** An ASCII literal as a JavaScript string. *)
Definition js (s : string) : jsstring :=
  map N_of_ascii (list_ascii_of_string s).

Fixpoint eqb (a b : jsstring) : bool :=
  match a, b with
  | [], [] => true
  | x :: a', y :: b' => N.eqb x y && eqb a' b'
  | _, _ => false
  end.

(** A string is truthy when it is not empty. *)
Definition nonEmpty (s : jsstring) : bool :=
  match s with [] => false | _ :: _ => true end.

(** [\s] of a regular expression without the [u] flag, which is also the
    set removed by [String.prototype.trim]: WhiteSpace and LineTerminator. *)
Definition isSpace (c : N) : bool :=
  ((9 <=? c) && (c <=? 13)                    (* \t \n \v \f \r *)
   || (c =? 32) || (c =? 0xA0) || (c =? 0x1680)
   || ((0x2000 <=? c) && (c <=? 0x200A))
   || (c =? 0x2028) || (c =? 0x2029) || (c =? 0x202F)
   || (c =? 0x205F) || (c =? 0x3000) || (c =? 0xFEFF))%N.

(** [\w]: [A-Za-z0-9_]. *)
Definition isWord (c : N) : bool :=
  (((65 <=? c) && (c <=? 90)) || ((97 <=? c) && (c <=? 122))
   || ((48 <=? c) && (c <=? 57)) || (c =? 95))%N.

Fixpoint dropWhile (p : N -> bool) (s : jsstring) : jsstring :=
  match s with
  | [] => []
  | c :: s' => if p c then dropWhile p s' else s
  end.

Definition trimStart (s : jsstring) : jsstring := dropWhile isSpace s.
Definition trimEnd (s : jsstring) : jsstring :=
  rev (dropWhile isSpace (rev s)).
Definition trim (s : jsstring) : jsstring := trimEnd (trimStart s).

Fixpoint startsWith (s p : jsstring) {struct p} : bool :=
  match p, s with
  | [], _ => true
  | x :: p', y :: s' => N.eqb x y && startsWith s' p'
  | _ :: _, [] => false
  end.

(** The first occurrence of [sep] in [s]: what precedes it and what
    follows it. *)
Fixpoint findFirst (sep s : jsstring) : option (jsstring * jsstring) :=
  if startsWith s sep then Some ([], skipn (length sep) s)
  else match s with
       | [] => None
       | c :: s' =>
           match findFirst sep s' with
           | Some (b, a) => Some (c :: b, a)
           | None => None
           end
       end.

Definition includes (s sub : jsstring) : bool :=
  match findFirst sub s with Some _ => true | None => false end.

(** [s.split(sep)] for a non-empty separator.  The recursion is on the
    text after each occurrence, which is strictly shorter; [length s]
    rounds are always enough. *)
Fixpoint splitFuel (fuel : nat) (sep s : jsstring) : list jsstring :=
  match fuel with
  | O => [s]
  | S fuel' =>
      match findFirst sep s with
      | None => [s]
      | Some (b, a) => b :: splitFuel fuel' sep a
      end
  end.

Definition split (s sep : jsstring) : list jsstring :=
  splitFuel (length s) sep s.

(** [arr.join(sep)]. *)
Fixpoint join (sep : jsstring) (l : list jsstring) : jsstring :=
  match l with
  | [] => []
  | [x] => x
  | x :: l' => x ++ sep ++ join sep l'
  end.

Definition newline : jsstring := [10%N].


(** [s.replace(pattern, replacement)] for a string pattern and a
    replacement without [$]: the first occurrence is replaced. *)
Definition replaceFirst (s pattern replacement : jsstring) : jsstring :=
  match findFirst pattern s with
  | Some (b, a) => b ++ replacement ++ a
  | None => s
  end.

(** The lowercase form of a code unit of [\w]; other ASCII code units are
    unchanged. *)
Definition toLowerAscii (c : N) : N :=
  if ((65 <=? c) && (c <=? 90))%N then (c + 32)%N else c.

Definition doubleQuote : jsstring := [34%N].

End JsString.
Import JsString.

(* ===================================================================== *)
(** ** JavaScript values, as far as a caught error can be inspected *)
(* ===================================================================== *)

Module JsValue.

(** The error caught by the service is typed [any].  Values are plain data:
    primitives, arrays, and objects given by their own properties in
    insertion order (keys are distinct), with a flag for instances of
    [Error].  Numbers are integers printed in decimal; functions, symbols,
    getters and cyclic structures are outside the model. *)
#[warnings="-register-all"]
Inductive t :=
| JUndefined
| JNull
| JBool (b : bool)
| JNumber (z : Z)
| JBigInt (z : Z)
| JString (s : jsstring)
| JArray (elems : list t)
| JObject (isError : bool) (props : list (jsstring * t)).

Definition truthy (v : t) : bool :=
  match v with
  | JUndefined | JNull => false
  | JBool b => b
  | JNumber z | JBigInt z => negb (Z.eqb z 0)
  | JString s => nonEmpty s
  | JArray _ | JObject _ _ => true
  end.

(** [typeof v === 'string'] *)
Definition isString (v : t) : bool :=
  match v with JString _ => true | _ => false end.

(** [v instanceof Error] *)
Definition instanceofError (v : t) : bool :=
  match v with JObject isError _ => isError | _ => false end.

Definition isUndefined (v : t) : bool :=
  match v with JUndefined => true | _ => false end.

Fixpoint assoc {A : Type} (k : jsstring) (l : list (jsstring * A))
  : option A :=
  match l with
  | [] => None
  | (k', v) :: l' => if eqb k k' then Some v else assoc k l'
  end.

(** What [Error.prototype] supplies for a property the instance lacks. *)
Definition errorPrototype (k : jsstring) : t :=
  if eqb k (js "message") then JString []
  else if eqb k (js "name") then JString (js "Error")
  else JUndefined.

(** [v?.k] for the property names the code reads ([response], [data],
    [error], [message], [statusText]): [undefined] on [null], [undefined]
    and on primitives and arrays, which have no such property. *)
Definition get (v : t) (k : jsstring) : t :=
  match v with
  | JObject isError props =>
      match assoc k props with
      | Some x => x
      | None => if isError then errorPrototype k else JUndefined
      end
  | _ => JUndefined
  end.

Definition decimal (z : Z) : jsstring :=
  js (NilZero.string_of_int (Z.to_int z)).

(** [String(v)]. *)
Fixpoint toString (v : t) : jsstring :=
  match v with
  | JUndefined => js "undefined"
  | JNull => js "null"
  | JBool true => js "true"
  | JBool false => js "false"
  | JNumber z | JBigInt z => decimal z
  | JString s => s
  | JArray elems =>
      (* Array.prototype.join: null and undefined print as nothing *)
      join (js ",")
        ((fix each (l : list t) : list jsstring :=
            match l with
            | [] => []
            | e :: l' =>
                (match e with
                 | JUndefined | JNull => []
                 | _ => toString e
                 end) :: each l'
            end) elems)
  | JObject false _ => js "[object Object]"
  | JObject true props =>
      (* Error.prototype.toString *)
      let strs :=
        (fix each (l : list (jsstring * t))
           : list (jsstring * (bool * jsstring)) :=
           match l with
           | [] => []
           | (k, x) :: l' => (k, (isUndefined x, toString x)) :: each l'
           end) props in
      let name :=
        match assoc (js "name") strs with
        | Some (false, s) => s
        | _ => js "Error"
        end in
      let msg :=
        match assoc (js "message") strs with
        | Some (false, s) => s
        | _ => []
        end in
      if nonEmpty name then
        if nonEmpty msg then name ++ js ": " ++ msg else name
      else msg
  end.

Definition hexDigit (d : N) : N :=
  (if d <? 10 then 48 + d else 87 + d)%N.

(** [\uXXXX] with lowercase hexadecimal digits. *)
Definition unicodeEscape (c : N) : jsstring :=
  js "\u" ++ [ hexDigit (N.shiftr c 12 mod 16); hexDigit (N.shiftr c 8 mod 16);
               hexDigit (N.shiftr c 4 mod 16); hexDigit (c mod 16) ]%N.

Definition isHighSurrogate (c : N) : bool :=
  ((0xD800 <=? c) && (c <=? 0xDBFF))%N.
Definition isLowSurrogate (c : N) : bool :=
  ((0xDC00 <=? c) && (c <=? 0xDFFF))%N.

(** The body of QuoteJSONString: control characters, the quote and the
    backslash are escaped, and so is a surrogate that is not paired. *)
Fixpoint quoteBody (s : jsstring) : jsstring :=
  match s with
  | [] => []
  | c :: s' =>
      if (c =? 8)%N then js "\b" ++ quoteBody s'
      else if (c =? 9)%N then js "\t" ++ quoteBody s'
      else if (c =? 10)%N then js "\n" ++ quoteBody s'
      else if (c =? 12)%N then js "\f" ++ quoteBody s'
      else if (c =? 13)%N then js "\r" ++ quoteBody s'
      else if (c =? 34)%N then [92; 34]%N ++ quoteBody s'
      else if (c =? 92)%N then [92; 92]%N ++ quoteBody s'
      else if (c <? 32)%N then unicodeEscape c ++ quoteBody s'
      else if isHighSurrogate c then
        match s' with
        | d :: s'' =>
            if isLowSurrogate d then c :: d :: quoteBody s''
            else unicodeEscape c ++ quoteBody s'
        | [] => unicodeEscape c
        end
      else if isLowSurrogate c then unicodeEscape c ++ quoteBody s'
      else c :: quoteBody s'
  end.

Definition quote (s : jsstring) : jsstring := [34%N] ++ quoteBody s ++ [34%N].

(** The outcome of a call that may throw. *)
Inductive Completion (A : Type) :=
| Returns (a : A)
| Throws.
Arguments Returns {A} a.
Arguments Throws {A}.

(** The [message] and [stack] of an [Error] instance are not enumerable. *)
Definition enumerable (isError : bool) (k : jsstring) : bool :=
  negb (isError && (eqb k (js "message") || eqb k (js "stack"))).

(** [JSON.stringify(v)]: a string, [undefined], or a [TypeError] (thrown
    for a BigInt anywhere in the value). *)
Fixpoint stringify (v : t) : Completion (option jsstring) :=
  match v with
  | JUndefined => Returns None
  | JNull => Returns (Some (js "null"))
  | JBool true => Returns (Some (js "true"))
  | JBool false => Returns (Some (js "false"))
  | JNumber z => Returns (Some (decimal z))
  | JBigInt _ => Throws
  | JString s => Returns (Some (quote s))
  | JArray elems =>
      match
        (fix each (l : list t) : Completion (list jsstring) :=
           match l with
           | [] => Returns []
           | e :: l' =>
               match stringify e, each l' with
               | Returns (Some s), Returns r => Returns (s :: r)
               | Returns None, Returns r => Returns (js "null" :: r)
               | _, _ => Throws
               end
           end) elems
      with
      | Returns items => Returns (Some (js "[" ++ join (js ",") items ++ js "]"))
      | Throws => Throws
      end
  | JObject isError props =>
      match
        (fix each (l : list (jsstring * t)) : Completion (list jsstring) :=
           match l with
           | [] => Returns []
           | (k, x) :: l' =>
               if enumerable isError k then
                 match stringify x, each l' with
                 | Returns (Some s), Returns r =>
                     Returns ((quote k ++ js ":" ++ s) :: r)
                 | Returns None, Returns r => Returns r
                 | _, _ => Throws
                 end
               else each l'
           end) props
      with
      | Returns items => Returns (Some (js "{" ++ join (js ",") items ++ js "}"))
      | Throws => Throws
      end
  end.

End JsValue.

(* ===================================================================== *)
(** ** types.ts and the provider's streaming protocol *)
(* ===================================================================== *)

Module Types.

Inductive Role := user | model.

Module ChatMessage.
Record t := mk { role : Role; text : jsstring; timestamp : Z }.
End ChatMessage.

Module WebSource.
Record t := mk { uri : jsstring; title : jsstring }.
End WebSource.

(** An element of [groundingChunks]: [{ web?: { uri, title } }]. *)
Record GroundingChunk := mkGroundingChunk { web : option WebSource.t }.

(** The accumulator object of the service, which becomes
    [AnalysisResult.groundingMetadata]. *)
Record GroundingMetadata := mkGrounding
  { groundingChunks : list GroundingChunk;
    webSearchQueries : option (list jsstring) }.

Module AnalysisResult.
Record t := mk
  { text : jsstring; groundingMetadata : option GroundingMetadata }.
End AnalysisResult.

(** The fields of [FileData] and of [AudioData] that the code reads. *)
Record MediaData := mkMedia { base64 : jsstring; mimeType : jsstring }.
Definition FileData := MediaData.
Definition AudioData := MediaData.

(** A content part: [{ text }] or [{ inlineData: { data, mimeType } }].
    [data] is [None] when the expression that computes it yields
    [undefined]. *)
Inductive Part :=
| TextPart (text : jsstring)
| InlineData (data : option jsstring) (mimeType : jsstring).

(** One turn of a request: [{ role, parts }]. *)
Record Content := mkContent { role : Role; parts : list Part }.

End Types.

Module Provider.
Import Types.

(** What the code reads of a streamed chunk: [chunk.text] and
    [chunk.candidates?.[0]?.groundingMetadata]; [None] is [undefined]. *)
Record ChunkMetadata := mkChunkMetadata
  { groundingChunks : option (list GroundingChunk);
    webSearchQueries : option (list jsstring) }.

Record Candidate := mkCandidate { groundingMetadata : option ChunkMetadata }.

Record Chunk := mkChunk
  { text : option jsstring; candidates : option (list Candidate) }.

(** A response stream as the [for await] loop sees it: the chunks it
    yields and, when it does not end normally, the value it throws after
    them (a failing [generateContentStream] call yields no chunk). *)
Record Stream := mkStream
  { chunks : list Chunk; failure : option JsValue.t }.

(** [ai.models.generateContentStream] as a function of the request's
    [contents]; the model name, the system instruction and the tool
    configuration are fixed. *)
Definition Api := list Content -> Stream.

End Provider.

(* ===================================================================== *)
(** ** Sequential effects on a state *)
(* ===================================================================== *)

Module StateM.

Definition M (S A : Type) : Type := S -> A * S.

Definition ret {S A} (a : A) : M S A := fun s => (a, s).

Definition bind {S A B} (m : M S A) (k : A -> M S B) : M S B :=
  fun s => let (a, s') := m s in k a s'.

Definition getState {S} : M S S := fun s => (s, s).
Definition modify {S} (f : S -> S) : M S unit := fun s => (tt, f s).

Definition exec {S A} (m : M S A) (s : S) : S := snd (m s).
Definition eval {S A} (m : M S A) (s : S) : A := fst (m s).

Declare Scope js_scope.
Delimit Scope js_scope with js.
Notation "x <- m ;; k" := (bind m (fun x => k))
  (at level 61, m at next level, right associativity) : js_scope.
Notation "m ;; k" := (bind m (fun _ => k))
  (at level 61, right associativity) : js_scope.

End StateM.

(* ===================================================================== *)
(** ** services/geminiService.ts *)
(* ===================================================================== *)

Module GeminiService.
Import JsValue Types StateM.
Local Open Scope js_scope.

Definition StreamUpdateCallback (S : Type) : Type :=
  jsstring -> option GroundingMetadata -> M S unit.

(** A [Promise<void>]: it resolves, or rejects with [new Error(message)]. *)
Inductive Outcome :=
| Resolved
| Rejected (message : jsstring).

(** [x && typeof x === 'string'] *)
Definition genuineString (x : JsValue.t) : bool := truthy x && isString x.

Definition extractErrorMessage (error : JsValue.t) : jsstring :=
  let nested :=
    get (get (get (get error (js "response")) (js "data")) (js "error"))
      (js "message") in
  let inner := get (get error (js "error")) (js "message") in
  let own := get error (js "message") in
  let msg : JsValue.t :=
    if genuineString nested then nested
    else if genuineString inner then inner
    else if genuineString own then own
    else if instanceofError error then get error (js "message")
    else if isString error then error
    else
      match stringify error with
      | Returns (Some stringified) =>
          JString (if eqb stringified (js "{}")
                   then js "An unknown system error occurred."
                   else stringified)
      | Returns None => JUndefined
      | Throws => JString (js "Non-serializable error.")
      end in
  let msg := toString msg in
  if includes msg (js "[object Object]") || eqb msg (js "{}") then
    let statusText := get error (js "statusText") in
    if genuineString statusText
    then js "API Error: " ++ toString statusText
    else js "Critical Error: The server returned an invalid response format."
  else msg.

(** [s] is defined and not empty. *)
Definition present (s : option jsstring) : bool :=
  match s with Some x => nonEmpty x | None => false end.

(** [b.includes('base64,') ? b.split('base64,')[1] : b] *)
Definition cleanBase64 (b : jsstring) : option jsstring :=
  if includes b (js "base64,") then nth_error (split b (js "base64,")) 1
  else Some b.

Definition defaultPrompt : jsstring :=
  js "Analyze the current state of the world based on available data and general knowledge.".

(** The [parts] array built by [analyzeContentStream]. *)
Definition analysisParts (textInput : jsstring)
    (base64Image imageMimeType base64Audio audioMimeType : option jsstring)
  : list Part :=
  let parts : list Part := [] in
  let parts :=
    match base64Image, imageMimeType with
    | Some b, Some m =>
        if nonEmpty b && nonEmpty m
        then parts ++ [InlineData (cleanBase64 b) m] else parts
    | _, _ => parts
    end in
  let parts :=
    match base64Audio, audioMimeType with
    | Some b, Some m =>
        if nonEmpty b && nonEmpty m
        then parts ++ [InlineData (cleanBase64 b) m] else parts
    | _, _ => parts
    end in
  if nonEmpty textInput then parts ++ [TextPart textInput]
  else if Nat.eqb (length parts) 0 then parts ++ [TextPart defaultPrompt]
  else parts.

(** [chunk.candidates?.[0]?.groundingMetadata] *)
Definition chunkMetadata (chunk : Provider.Chunk)
  : option Provider.ChunkMetadata :=
  match Provider.candidates chunk with
  | Some (c :: _) => Provider.groundingMetadata c
  | _ => None
  end.

(** [if (chunkText) fullText += chunkText] *)
Definition appendText (fullText : jsstring) (chunk : Provider.Chunk)
  : jsstring :=
  match Provider.text chunk with
  | Some chunkText =>
      if nonEmpty chunkText then fullText ++ chunkText else fullText
  | None => fullText
  end.

(** The update of [accumulatedGrounding] for one chunk. *)
Definition accumulate (acc : GroundingMetadata) (chunk : Provider.Chunk)
  : GroundingMetadata :=
  match chunkMetadata chunk with
  | Some md =>
      let acc :=
        match Provider.groundingChunks md with
        | Some gs => mkGrounding (groundingChunks acc ++ gs)
                       (webSearchQueries acc)
        | None => acc
        end in
      match Provider.webSearchQueries md with
      | Some qs => mkGrounding (groundingChunks acc) (Some qs)
      | None => acc
      end
  | None => acc
  end.

(** The [for await] loop of [analyzeContentStream].  The accumulator is one
    object that the loop mutates; the callback is given its value at the
    time of the call. *)
Fixpoint analyzeLoop {S} (onUpdate : StreamUpdateCallback S)
    (chunks : list Provider.Chunk) (fullText : jsstring)
    (accumulatedGrounding : GroundingMetadata) : M S unit :=
  match chunks with
  | [] => ret tt
  | chunk :: rest =>
      let fullText := appendText fullText chunk in
      let accumulatedGrounding := accumulate accumulatedGrounding chunk in
      onUpdate fullText (Some accumulatedGrounding) ;;
      analyzeLoop onUpdate rest fullText accumulatedGrounding
  end.

Definition analyzeContentStream {S} (API_KEY : option jsstring)
    (generateContentStream : Provider.Api) (textInput : jsstring)
    (base64Image imageMimeType base64Audio audioMimeType : option jsstring)
    (onUpdate : StreamUpdateCallback S) : M S Outcome :=
  if negb (present API_KEY) then
    ret (Rejected
           (js "API Key is missing. Please check your environment variables."))
  else
    let parts :=
      analysisParts textInput base64Image imageMimeType base64Audio
        audioMimeType in
    let responseStream := generateContentStream [mkContent user parts] in
    analyzeLoop onUpdate (Provider.chunks responseStream) []
      (mkGrounding [] None) ;;
    match Provider.failure responseStream with
    | Some error => ret (Rejected (extractErrorMessage error))
    | None => ret Resolved
    end.

(** The [contents] array built by [continueConversationStream]. *)
Definition continuationContents (history : list ChatMessage.t)
    (newMessage : jsstring) (initialContextParts : list Part)
  : list Content :=
  let contents : list Content := [] in
  let contents :=
    if Nat.ltb 0 (length initialContextParts)
    then contents ++ [mkContent user initialContextParts] else contents in
  let contents :=
    fold_left
      (fun contents msg =>
         contents ++
           [mkContent (ChatMessage.role msg) [TextPart (ChatMessage.text msg)]])
      history contents in
  contents ++ [mkContent user [TextPart newMessage]].

(** The [for await] loop of [continueConversationStream]: the callback
    receives the text alone. *)
Fixpoint continueLoop {S} (onUpdate : StreamUpdateCallback S)
    (chunks : list Provider.Chunk) (fullText : jsstring) : M S unit :=
  match chunks with
  | [] => ret tt
  | chunk :: rest =>
      let fullText := appendText fullText chunk in
      onUpdate fullText None ;;
      continueLoop onUpdate rest fullText
  end.

Definition continueConversationStream {S} (API_KEY : option jsstring)
    (generateContentStream : Provider.Api) (history : list ChatMessage.t)
    (newMessage : jsstring) (initialContextParts : list Part)
    (onUpdate : StreamUpdateCallback S) : M S Outcome :=
  if negb (present API_KEY) then ret (Rejected (js "API Key missing"))
  else
    let contents :=
      continuationContents history newMessage initialContextParts in
    let responseStream := generateContentStream contents in
    continueLoop onUpdate (Provider.chunks responseStream) [] ;;
    match Provider.failure responseStream with
    | Some error => ret (Rejected (extractErrorMessage error))
    | None => ret Resolved
    end.

End GeminiService.

(* ===================================================================== *)
(** ** App.tsx *)
(* ===================================================================== *)

Module App.
Import Types StateM GeminiService.
Local Open Scope js_scope.

(** The component's state ([useState] cells) and the number of
    [Date.now()] calls made so far. *)
Record World := mkWorld
  { isLoading : bool;
    result : option AnalysisResult.t;
    error : option jsstring;
    isStreaming : bool;
    isVisualAnalysis : bool;
    chatHistory : list ChatMessage.t;
    initialContextParts : list Part;
    ticks : nat }.

Definition setIsLoading (v : bool) : M World unit :=
  modify (fun w => mkWorld v (result w) (error w) (isStreaming w)
                     (isVisualAnalysis w) (chatHistory w)
                     (initialContextParts w) (ticks w)).

(** [setResult] with an updater function. *)
Definition setResult
    (f : option AnalysisResult.t -> option AnalysisResult.t)
  : M World unit :=
  modify (fun w => mkWorld (isLoading w) (f (result w)) (error w)
                     (isStreaming w) (isVisualAnalysis w) (chatHistory w)
                     (initialContextParts w) (ticks w)).

Definition setError (v : option jsstring) : M World unit :=
  modify (fun w => mkWorld (isLoading w) (result w) v (isStreaming w)
                     (isVisualAnalysis w) (chatHistory w)
                     (initialContextParts w) (ticks w)).

Definition setIsStreaming (v : bool) : M World unit :=
  modify (fun w => mkWorld (isLoading w) (result w) (error w) v
                     (isVisualAnalysis w) (chatHistory w)
                     (initialContextParts w) (ticks w)).

Definition setIsVisualAnalysis (v : bool) : M World unit :=
  modify (fun w => mkWorld (isLoading w) (result w) (error w)
                     (isStreaming w) v (chatHistory w)
                     (initialContextParts w) (ticks w)).

(** [setChatHistory] with an updater function. *)
Definition setChatHistory
    (f : list ChatMessage.t -> list ChatMessage.t) : M World unit :=
  modify (fun w => mkWorld (isLoading w) (result w) (error w)
                     (isStreaming w) (isVisualAnalysis w)
                     (f (chatHistory w)) (initialContextParts w) (ticks w)).

Definition setInitialContextParts (v : list Part) : M World unit :=
  modify (fun w => mkWorld (isLoading w) (result w) (error w)
                     (isStreaming w) (isVisualAnalysis w) (chatHistory w)
                     v (ticks w)).

(** [copy[copy.length - 1] = x] on a copy of [prev]: on an empty array the
    assignment creates the property [-1] and the array stays empty. *)
Definition setLast (prev : list ChatMessage.t) (x : ChatMessage.t)
  : list ChatMessage.t :=
  match prev with
  | [] => []
  | _ :: _ => removelast prev ++ [x]
  end.

(** [fileData.base64.split('base64,')[1]] *)
Definition afterMarker (b : jsstring) : option jsstring :=
  nth_error (split b (js "base64,")) 1.

(** The [contextParts] array built by [handleAnalyze]. *)
Definition contextParts (text : jsstring) (fileData : option FileData)
    (audioData : option AudioData) : list Part :=
  let contextParts : list Part := [] in
  let contextParts :=
    match fileData with
    | Some f =>
        contextParts ++ [InlineData (afterMarker (base64 f)) (mimeType f)]
    | None => contextParts
    end in
  let contextParts :=
    match audioData with
    | Some a =>
        contextParts ++ [InlineData (afterMarker (base64 a)) (mimeType a)]
    | None => contextParts
    end in
  let contextParts :=
    if nonEmpty text then contextParts ++ [TextPart text]
    else contextParts in
  if Nat.eqb (length contextParts) 0
  then contextParts ++ [TextPart (js "Analyze world data.")]
  else contextParts.

Section Handlers.

(** The clock: the value returned by the [n]-th call of [Date.now()]. *)
Variable time : nat -> Z.
(** [process.env.API_KEY] and the provider. *)
Variable API_KEY : option jsstring.
Variable generateContentStream : Provider.Api.

Definition dateNow : M World Z :=
  fun w => (time (ticks w),
            mkWorld (isLoading w) (result w) (error w) (isStreaming w)
              (isVisualAnalysis w) (chatHistory w)
              (initialContextParts w) (S (ticks w))).

(** The callback [handleAnalyze] gives to [analyzeContentStream]. *)
Definition analysisUpdate : StreamUpdateCallback World :=
  fun streamedText streamedMetadata =>
    setResult (fun prev =>
      Some (AnalysisResult.mk streamedText
              match streamedMetadata with
              | Some md => Some md
              | None =>
                  match prev with
                  | Some r => AnalysisResult.groundingMetadata r
                  | None => None
                  end
              end)) ;;
    if Nat.ltb 5 (length streamedText) then setIsLoading false
    else ret tt.

Definition handleAnalyze (text : jsstring) (fileData : option FileData)
    (audioData : option AudioData) : M World unit :=
  setIsLoading true ;;
  setIsStreaming true ;;
  setIsVisualAnalysis (match fileData with Some _ => true | None => false end) ;;
  setError None ;;
  setResult (fun _ => Some (AnalysisResult.mk [] None)) ;;
  setChatHistory (fun _ => []) ;;
  setInitialContextParts (contextParts text fileData audioData) ;;
  outcome <- analyzeContentStream API_KEY generateContentStream text
               (option_map base64 fileData) (option_map mimeType fileData)
               (option_map base64 audioData) (option_map mimeType audioData)
               analysisUpdate ;;
  match outcome with
  | Resolved => ret tt
  | Rejected message =>
      let msg :=
        if includes message (js "[object Object]") || eqb message (js "{}")
        then js "System Error: Connection terminated unexpectedly."
        else message in
      setError (Some msg) ;;
      setIsLoading false
  end ;;
  setIsStreaming false ;;
  setIsLoading false.

(** The callback [handleSendMessage] gives to
    [continueConversationStream]. *)
Definition chatUpdate : StreamUpdateCallback World :=
  fun streamedText _ =>
    now <- dateNow ;;
    setChatHistory (fun prev =>
      setLast prev (ChatMessage.mk model streamedText now)).

(** [handleSendMessage] of the latest render: [result], [chatHistory] and
    [initialContextParts] in its closure are the current state. *)
Definition handleSendMessage (message : jsstring) : M World unit :=
  w <- getState ;;
  match result w with
  | None => ret tt
  | Some result =>
      now <- dateNow ;;
      let userMsg := ChatMessage.mk user message now in
      let newHistory := chatHistory w in
      newHistory <-
        (if Nat.eqb (length newHistory) 0 then
           now <- dateNow ;;
           ret (newHistory ++
                  [ChatMessage.mk model (AnalysisResult.text result) now])
         else ret newHistory) ;;
      let historyWithUser := newHistory ++ [userMsg] in
      setChatHistory (fun _ => historyWithUser) ;;
      now <- dateNow ;;
      setChatHistory (fun prev =>
        prev ++ [ChatMessage.mk model (js "Thinking...") now]) ;;
      outcome <- continueConversationStream API_KEY generateContentStream
                   newHistory message (initialContextParts w) chatUpdate ;;
      match outcome with
      | Resolved => ret tt
      | Rejected message =>
          let msg :=
            if includes message (js "[object Object]")
            then js "Connection interrupted (Unknown Error)."
            else message in
          now <- dateNow ;;
          setChatHistory (fun prev =>
            setLast prev (ChatMessage.mk model (js "Error: " ++ msg) now))
      end
  end.

End Handlers.

(** [reset] *)
Definition reset : M World unit :=
  setResult (fun _ => None) ;;
  setError None ;;
  setIsStreaming false ;;
  setIsVisualAnalysis false ;;
  setChatHistory (fun _ => []) ;;
  setInitialContextParts [].

End App.

(* ===================================================================== *)
(** ** components/InputSection.tsx: submitting the form *)
(* ===================================================================== *)

Module InputSection.
Import Types StateM.
Local Open Scope js_scope.

(** The geolocation fix, by the text that a template literal prints for
    each coordinate. *)
Record Location := mkLocation { lat : jsstring; lng : jsstring }.

Definition locatedText (location : Location) (text : jsstring) : jsstring :=
  js "[DATA CONTEXT: USER LOCATION DETECTED: LAT " ++ lat location
  ++ js ", LNG " ++ lng location
  ++ js ". USE THIS TO GROUND THE ANALYSIS IN THIS SPECIFIC GEOGRAPHIC REGION.] "
  ++ newline ++ newline ++ text.

Definition isNull {A} (x : option A) : bool :=
  match x with Some _ => false | None => true end.

(** [handleSubmit] with the state of the form. *)
Definition handleSubmit {S} (text : jsstring) (fileData : option FileData)
    (audioData : option AudioData) (location : option Location)
    (onAnalyze : jsstring -> option FileData -> option AudioData -> M S unit)
  : M S unit :=
  if negb (nonEmpty text) && isNull fileData && isNull audioData then ret tt
  else
    let finalText :=
      match location with
      | Some l => locatedText l text
      | None => text
      end in
    onAnalyze finalText fileData audioData.

End InputSection.

(* ===================================================================== *)
(** ** components/AnalysisDisplay.tsx: the section parser and the sources *)
(* ===================================================================== *)

Module AnalysisDisplay.

Inductive SectionType :=
  TypeHeader | TypeList | TypeText | TypeCode | TypeTable | TypeImpact.
Inductive Theme :=
  ThemeNeutral | ThemeDanger | ThemeInfo | ThemeWarning | ThemeSuccess
| ThemeLife.

Record SectionConfig := mkConfig
  { cfg_icon : jsstring; cfg_type : SectionType; cfg_theme : Theme }.

Record ParsedSection := mkSection
  { title : jsstring;
    icon : jsstring;
    content : jsstring;
    type : SectionType;
    theme : Theme }.

(** [sectionConfig]; [Object.keys] enumerates the keys in this order. *)
Definition sectionConfig : list (jsstring * SectionConfig) :=
  [ (js "GlobalSight Analysis", mkConfig (js "fa-globe") TypeHeader ThemeNeutral);
    (js "Problem Detected",
      mkConfig (js "fa-triangle-exclamation") TypeList ThemeDanger);
    (js "Root Cause", mkConfig (js "fa-dna") TypeText ThemeInfo);
    (js "Predicted Impact", mkConfig (js "fa-chart-line") TypeImpact ThemeWarning);
    (js "Actionable Solutions", mkConfig (js "fa-leaf") TypeList ThemeSuccess);
    (js "Simulation Model", mkConfig (js "fa-flask") TypeText ThemeLife);
    (js "Auto-Generated Code", mkConfig (js "fa-code") TypeCode ThemeNeutral);
    (js "Summary Snapshot", mkConfig (js "fa-clipboard-check") TypeTable ThemeSuccess) ].

Definition defaultConfig : SectionConfig :=
  mkConfig (js "fa-circle-info") TypeText ThemeNeutral.

(** [currentTitle.replace(/^[#\s]+/, '').trim()] followed by
    [.replace(/^[^\w\s]+\s*/, '')]. *)
Definition cleanTitle (currentTitle : jsstring) : jsstring :=
  let t := trim (dropWhile (fun c => N.eqb c 35 || isSpace c) currentTitle) in
  match t with
  | c :: _ =>
      if negb (isWord c || isSpace c)
      then dropWhile isSpace
             (dropWhile (fun c => negb (isWord c || isSpace c)) t)
      else t
  | [] => t
  end.

(** [Object.keys(sectionConfig).find(k => cleanTitle.includes(k))] and the
    lookup of the key that was found. *)
Definition lookupConfig (clean : jsstring) : SectionConfig :=
  match find (fun kv => includes clean (fst kv)) sectionConfig with
  | Some kv => snd kv
  | None => defaultConfig
  end.

(** The three variables the loop updates. *)
Record ParserState := mkState
  { parsed : list ParsedSection;
    currentTitle : jsstring;
    currentContent : list jsstring }.

Definition flushSection (st : ParserState) : ParserState :=
  {| parsed :=
       if nonEmpty (currentTitle st) then
         let clean := cleanTitle (currentTitle st) in
         let config := lookupConfig clean in
         parsed st ++
           [ {| title := clean;
                icon := cfg_icon config;
                content := trim (join newline (currentContent st));
                type := cfg_type config;
                theme := cfg_theme config |} ]
       else parsed st;
     currentTitle := currentTitle st;
     currentContent := [] |}.

Definition isHeading (line : jsstring) : bool :=
  startsWith line (js "## ") || startsWith line (js "# ").

(** One iteration of [for (const line of lines)]. *)
Definition step (st : ParserState) (line : jsstring) : ParserState :=
  if isHeading line then
    let st' := flushSection st in
    {| parsed := parsed st';
       currentTitle := line;
       currentContent := currentContent st' |}
  else
    {| parsed := parsed st;
       currentTitle := currentTitle st;
       currentContent := currentContent st ++ [line] |}.

Definition initial : ParserState :=
  {| parsed := []; currentTitle := []; currentContent := [] |}.

(** The loop over the lines and the final [flushSection()]. *)
Definition parseLines (lines : list jsstring) : list ParsedSection :=
  parsed (flushSection (fold_left step lines initial)).

Definition sections (rawMarkdown : jsstring) : list ParsedSection :=
  if nonEmpty rawMarkdown then parseLines (split rawMarkdown newline)
  else [].

(** [map.set(k, v)] on a [Map] kept as its entries in insertion order: an
    existing key keeps its place and takes the new value. *)
Fixpoint mapSet (entries : list (jsstring * Types.WebSource.t))
    (k : jsstring) (v : Types.WebSource.t)
  : list (jsstring * Types.WebSource.t) :=
  match entries with
  | [] => [(k, v)]
  | (k', v') :: rest =>
      if eqb k' k then (k', v) :: rest else (k', v') :: mapSet rest k v
  end.

(** [chunks.map(chunk => chunk.web).filter(web => !!web)] *)
Definition webSources (chunks : list Types.GroundingChunk)
  : list Types.WebSource.t :=
  flat_map (fun chunk => match Types.web chunk with
                         | Some web => [web]
                         | None => []
                         end) chunks.

(** [Array.from(new Map(sources.map(item => [item.uri, item])).values())] *)
Definition uniqueSources (sources : list Types.WebSource.t)
  : list Types.WebSource.t :=
  map snd
    (fold_left (fun entries item => mapSet entries (Types.WebSource.uri item) item)
       sources []).

(** The sources [renderGrounding] lists; [None] when it renders nothing. *)
Definition renderGrounding (groundingMetadata : option Types.GroundingMetadata)
  : option (list Types.WebSource.t) :=
  match groundingMetadata with
  | None => None
  | Some md =>
      if Nat.eqb (length (Types.groundingChunks md)) 0 then None
      else
        let unique := uniqueSources (webSources (Types.groundingChunks md)) in
        if Nat.eqb (length unique) 0 then None else Some unique
  end.

(** [getThemeClasses] and [getThemeText]; the theme ['neutral'] takes the
    [default] branch. *)
Definition getThemeClasses (theme : Theme) : jsstring :=
  match theme with
  | ThemeDanger => js "from-gs-alert to-red-600"
  | ThemeSuccess => js "from-gs-land to-emerald-600"
  | ThemeInfo => js "from-gs-ocean to-blue-600"
  | ThemeLife => js "from-gs-life to-yellow-600"
  | ThemeWarning => js "from-orange-500 to-red-500"
  | ThemeNeutral => js "from-slate-600 to-slate-800"
  end.

Definition getThemeText (theme : Theme) : jsstring :=
  match theme with
  | ThemeDanger => js "text-gs-alert"
  | ThemeSuccess => js "text-gs-land"
  | ThemeInfo => js "text-gs-ocean"
  | ThemeLife => js "text-gs-life"
  | ThemeWarning => js "text-orange-400"
  | ThemeNeutral => js "text-slate-400"
  end.

(** [sections.map(...)]: a section whose title includes
    ['GlobalSight Analysis'] renders nothing. *)
Definition isRendered (section : ParsedSection) : bool :=
  negb (includes (title section) (js "GlobalSight Analysis")).

Definition isFullWidth (section : ParsedSection) : bool :=
  existsb (fun k => includes (title section) k)
    [js "Auto-Generated Code"; js "Summary Snapshot"; js "Root Cause"].

(** [content.match(/word/i)] as a condition, for a pattern of ASCII letters:
    without the [u] flag a letter of the pattern matches its two ASCII cases
    and nothing else. *)
Definition matchesIgnoreCase (content word : jsstring) : bool :=
  includes (map toLowerAscii content) (map toLowerAscii word).

(** What the impact branch of [renderContent] computes from the content. *)
Record Risk := mkRisk
  { riskGradient : jsstring; riskLabel : jsstring; barWidth : jsstring }.

Definition impactRisk (content : jsstring) : Risk :=
  let isCritical := matchesIgnoreCase content (js "Critical") in
  let isHigh := matchesIgnoreCase content (js "High") in
  let isMedium := matchesIgnoreCase content (js "Medium") in
  let '(riskGradient, riskLabel) :=
    if isCritical then (js "from-gs-alert to-red-600", js "Critical")
    else if isHigh then (js "from-orange-500 to-red-500", js "High")
    else if isMedium then (js "from-gs-life to-orange-400", js "Medium")
    else (js "from-gs-ocean to-cyan-500", js "Low") in
  {| riskGradient := riskGradient;
     riskLabel := riskLabel;
     barWidth := if isCritical then js "100%"
                 else if isHigh then js "75%"
                 else if isMedium then js "50%"
                 else js "25%" |}.




Definition documentHead : jsstring :=
  newline
  ++ js "                <!DOCTYPE html>" ++ newline
  ++ js "                <html>" ++ newline
  ++ js "                <head>" ++ newline
  ++ js "                  <meta charset=" ++ doubleQuote ++ js "utf-8" ++ doubleQuote ++ js ">" ++ newline
  ++ js "                  <script src=" ++ doubleQuote ++ js "https://cdn.tailwindcss.com" ++ doubleQuote ++ js "></script>" ++ newline
  ++ js "                  <script src=" ++ doubleQuote ++ js "https://cdn.jsdelivr.net/npm/chart.js" ++ doubleQuote ++ js "></script>" ++ newline
  ++ js "                  <link rel=" ++ doubleQuote ++ js "stylesheet" ++ doubleQuote ++ js " href=" ++ doubleQuote ++ js "https://unpkg.com/leaflet/dist/leaflet.css" ++ doubleQuote ++ js " />" ++ newline
  ++ js "                  <script src=" ++ doubleQuote ++ js "https://unpkg.com/leaflet/dist/leaflet.js" ++ doubleQuote ++ js "></script>" ++ newline
  ++ js "                  <style>" ++ newline
  ++ js "                    body { background-color: #000; color: white; padding: 20px; font-family: sans-serif; }" ++ newline
  ++ js "                    #map { height: 300px; width: 100%; border-radius: 10px; margin-top: 10px; }" ++ newline
  ++ js "                  </style>" ++ newline
  ++ js "                </head>" ++ newline
  ++ js "                <body>" ++ newline
  ++ js "                  ".

Definition documentTail : jsstring :=
  newline
  ++ js "                </body>" ++ newline
  ++ js "                </html>" ++ newline
  ++ js "              ".

Definition chartTag : jsstring :=
  js "<script src=" ++ doubleQuote ++ js "https://cdn.jsdelivr.net/npm/chart.js"
  ++ doubleQuote ++ js "></script>".

Definition tailwindTag : jsstring :=
  js "<script src=" ++ doubleQuote ++ js "https://cdn.tailwindcss.com"
  ++ doubleQuote ++ js "></script>".

Definition leafletTags : jsstring :=
  js "<link rel=" ++ doubleQuote ++ js "stylesheet" ++ doubleQuote
  ++ js " href=" ++ doubleQuote ++ js "https://unpkg.com/leaflet/dist/leaflet.css"
  ++ doubleQuote ++ js " /><script src=" ++ doubleQuote
  ++ js "https://unpkg.com/leaflet/dist/leaflet.js" ++ doubleQuote
  ++ js "></script>".

(** [if (!s.includes(marker)) s = s.replace('<head>', '<head>' + tags)] *)
Definition inject (marker tags s : jsstring) : jsstring :=
  if includes s marker then s
  else replaceFirst s (js "<head>") (js "<head>" ++ tags).

(** The body of [if (isRenderable) { ... }]: the repaired document. *)
Definition autoHeal (safeCode : jsstring) : jsstring :=
  if negb (includes safeCode (js "<!DOCTYPE html>")) then
    documentHead ++ safeCode ++ documentTail
  else
    let safeCode := inject (js "chart.js") chartTag safeCode in
    let safeCode := inject (js "tailwindcss") tailwindTag safeCode in
    inject (js "leaflet") leafletTags safeCode.




End AnalysisDisplay.



(* ===================================================================== *)
(** ** Observation of callbacks and proof-side characterisations *)
(* ===================================================================== *)

Module Observe.
Import Types StateM GeminiService.

(** One invocation of a [StreamUpdateCallback]: its two arguments. *)
Definition Update : Type := jsstring * option GroundingMetadata.

(** The callback that writes down every invocation, in order. *)
Definition record : StreamUpdateCallback (list Update) :=
  fun text groundingMetadata =>
    modify (fun log => log ++ [(text, groundingMetadata)]).

(** The grounding chunks an update carries ([[]] when it carries no
    metadata). *)
Definition chunksOf (u : Update) : list GroundingChunk :=
  match snd u with
  | Some md => groundingChunks md
  | None => []
  end.

(** [b] is [a] with something appended. *)
Definition extends {A : Type} (a b : list A) : Prop :=
  exists d, b = a ++ d.

(** The lines of a text, by structural recursion; [lines_split] shows
    that this is [s.split('\n')]. *)
Fixpoint lines (s : jsstring) : list jsstring :=
  match s with
  | [] => [[]]
  | c :: s' =>
      if N.eqb 10 c then [] :: lines s'
      else match lines s' with
           | l :: ls => (c :: l) :: ls
           | [] => [[c]]
           end
  end.

Definition titles (secs : list AnalysisDisplay.ParsedSection)
  : list jsstring :=
  map AnalysisDisplay.title secs.

(** The titles a parser state has found so far: those of the sections
    already pushed and the one of the section still open. *)
Definition discovered (st : AnalysisDisplay.ParserState) : list jsstring :=
  titles (AnalysisDisplay.parsed st) ++
  (if nonEmpty (AnalysisDisplay.currentTitle st)
   then [AnalysisDisplay.cleanTitle (AnalysisDisplay.currentTitle st)]
   else []).

Definition notHeading (line : jsstring) : bool :=
  negb (AnalysisDisplay.isHeading line).

(** The example of the specification: two streamed deltas, concatenated. *)
Definition exampleMarkdown : jsstring :=
  js "## " ++ [0xD83D; 0xDD0D]%N ++ js " Problem Detected" ++ newline
  ++ js "- pollution" ++ newline
  ++ js "## " ++ [0xD83E; 0xDDE0]%N ++ js " Root Cause" ++ newline
  ++ js "contamination" ++ newline.

(** A provider answering every request with three chunks; each carries a
    text delta (the second one none) and one grounding chunk, with the
    source URIs "a", "b", "a". *)
Definition groundedChunk (text : option jsstring) (uri title : jsstring)
  : Provider.Chunk :=
  Provider.mkChunk text
    (Some [Provider.mkCandidate
             (Some (Provider.mkChunkMetadata
                      (Some [mkGroundingChunk
                               (Some (WebSource.mk uri title))])
                      None))]).

Definition exampleApi : Provider.Api :=
  fun _ =>
    Provider.mkStream
      [ groundedChunk (Some (js "## Sources")) (js "a") (js "first");
        groundedChunk None (js "b") (js "second");
        groundedChunk (Some (js " follow")) (js "a") (js "third") ]
      None.

Definition exampleKey : option jsstring := Some (js "key").

(** The turn a prior chat message becomes in a continuation request. *)
Definition turnOf (msg : ChatMessage.t) : Content :=
  mkContent (ChatMessage.role msg) [TextPart (ChatMessage.text msg)].

(** The part one medium contributes to the analysis request. *)
Definition mediaPart (base64 mimeType : option jsstring) : list Part :=
  match base64, mimeType with
  | Some b, Some m =>
      if nonEmpty b && nonEmpty m then [InlineData (cleanBase64 b) m]
      else []
  | _, _ => []
  end.

Definition isInlineData (p : Part) : bool :=
  match p with InlineData _ _ => true | TextPart _ => false end.

Definition comma : N := 44%N.

(** A provider that stops after the first [k] chunks of its answer: the
    state of a [for await] loop after [k] rounds is the state the whole
    call ends in on that shorter stream. *)
Definition truncated (k : nat) (api : Provider.Api) : Provider.Api :=
  fun contents =>
    Provider.mkStream (firstn k (Provider.chunks (api contents))) None.

(** A history of three entries: the two given ones and a model turn. *)
Definition exchange (initial userMsg : ChatMessage.t)
    (history : list ChatMessage.t) : Prop :=
  exists reply,
    history = [initial; userMsg; reply] /\ ChatMessage.role reply = model.

(** A session whose analysis has completed and whose chat is empty. *)
Definition exampleWorld : App.World :=
  App.mkWorld false (Some (AnalysisResult.mk (js "report") None)) None
    false false [] [TextPart (js "check this river")] 0.

(** A file dropped on the form whose type the browser does not know:
    [file.type] is the empty string. *)
Definition untypedFile : FileData :=
  mkMedia (js "data:application/octet-stream;base64,AAAA") [].

(** Entries of the [Map] whose key is the URI of their value. *)
Definition keyed (e : jsstring * WebSource.t) : Prop :=
  fst e = WebSource.uri (snd e).

(** The entries of [new Map(...)] after the pairs of [sources] are added
    to the entries [m]. *)
Definition collect (sources : list WebSource.t)
    (m : list (jsstring * WebSource.t)) :=
  fold_left
    (fun entries item =>
       AnalysisDisplay.mapSet entries (WebSource.uri item) item)
    sources m.

(** A section as [flushSection] builds it from a heading line and the lines
    collected under it. *)
Definition builtFrom (heading : jsstring) (body : list jsstring)
  : AnalysisDisplay.ParsedSection :=
  let clean := AnalysisDisplay.cleanTitle heading in
  let config := AnalysisDisplay.lookupConfig clean in
  AnalysisDisplay.mkSection clean (AnalysisDisplay.cfg_icon config)
    (trim (join newline body)) (AnalysisDisplay.cfg_type config)
    (AnalysisDisplay.cfg_theme config).

(** Neither the first nor the last code unit of [s] is white space. *)
Definition trimmed (s : jsstring) : Prop :=
  (forall c rest, s = c :: rest -> isSpace c = false) /\
  (forall c init, s = init ++ [c] -> isSpace c = false).

(** The text delta of a chunk ([""] when it carries none). *)
Definition delta (chunk : Provider.Chunk) : jsstring :=
  match Provider.text chunk with
  | Some t => t
  | None => []
  end.

(** Every occurrence of [x] that reaches a [>] ends there. *)
Definition endsAtAngle (x : jsstring) : bool :=
  forallb (fun c => negb (N.eqb c 62)) (removelast x).

(** The text a stream has delivered when it ends: its deltas, in order. *)
Definition streamedText (chunks : list Provider.Chunk) : jsstring :=
  concat (map delta chunks).

(** The grounding a stream has delivered when it ends. *)
Definition streamedGrounding (chunks : list Provider.Chunk)
  : GroundingMetadata :=
  fold_left accumulate chunks (mkGrounding [] None).

(** The request of an analysis. *)
Definition analysisRequest (text : jsstring) (fileData : option FileData)
    (audioData : option AudioData) : list Content :=
  [mkContent user
     (analysisParts text (option_map base64 fileData)
        (option_map mimeType fileData) (option_map base64 audioData)
        (option_map mimeType audioData))].

(** The message [handleAnalyze] shows for a rejection with [message]. *)
Definition shownError (message : jsstring) : jsstring :=
  if includes message (js "[object Object]") || eqb message (js "{}")
  then js "System Error: Connection terminated unexpectedly."
  else message.

(** The text [handleSendMessage] puts in the reply for a rejection with
    [message]. *)
Definition replyError (message : jsstring) : jsstring :=
  js "Error: " ++
  (if includes message (js "[object Object]")
   then js "Connection interrupted (Unknown Error)."
   else message).

(** The history a follow-up hands to the service: the current one, or the
    synthesized first turn when there is none yet. *)
Definition priorTurns (time : nat -> Z) (w : App.World)
    (analysis : AnalysisResult.t) : list ChatMessage.t :=
  match App.chatHistory w with
  | [] => [ChatMessage.mk model (AnalysisResult.text analysis)
             (time (S (App.ticks w)))]
  | _ :: _ => App.chatHistory w
  end.

(** The text of the reply entry when a follow-up is over. *)
Definition replyText (API_KEY : option jsstring) (stream : Provider.Stream)
  : jsstring :=
  if negb (present API_KEY) then replyError (js "API Key missing")
  else
    match Provider.failure stream with
    | Some error => replyError (extractErrorMessage error)
    | None =>
        match Provider.chunks stream with
        | [] => js "Thinking..."
        | _ :: _ => streamedText (Provider.chunks stream)
        end
    end.

(** A medium, when there is one, is a non-empty data URL (it holds
    ["base64,"]) with a non-empty mime type. *)
Definition dataUrlWithType (m : option MediaData) : bool :=
  match m with
  | Some d => includes (base64 d) (js "base64,") && nonEmpty (base64 d)
              && nonEmpty (mimeType d)
  | None => true
  end.

End Observe.

(* ===================================================================== *)
(** ** Facts about strings *)
(* ===================================================================== *)

Import JsString JsValue Types StateM GeminiService Observe.

Lemma eqb_eq (a b : jsstring) : eqb a b = true <-> a = b.
Proof.
  revert b; induction a as [|x a IH]; intros [|y b]; simpl;
    try (split; [discriminate | congruence]); [tauto|].
  rewrite andb_true_iff, N.eqb_eq, IH.
  split; [intros [-> ->]; reflexivity | intros H; inversion H; auto].
Qed.

Lemma eqb_refl (a : jsstring) : eqb a a = true.
Proof. apply eqb_eq; reflexivity. Qed.

Lemma startsWith_app (s p : jsstring) :
  startsWith s p = true <-> exists r, s = p ++ r.
Proof.
  revert s; induction p as [|x p IH]; intros s; simpl.
  - split; [eexists; reflexivity | reflexivity].
  - destruct s as [|y s].
    + split; [discriminate | intros [r H]; discriminate].
    + rewrite andb_true_iff, N.eqb_eq, IH. split.
      * intros [-> [r ->]]. exists r; reflexivity.
      * intros [r H]. inversion H; subst. split; [reflexivity | eauto].
Qed.

Lemma findFirst_app (sep s b a : jsstring) :
  findFirst sep s = Some (b, a) -> s = b ++ sep ++ a.
Proof.
  revert b; induction s as [|c s IH]; intros b; simpl.
  - destruct (startsWith [] sep) eqn:E; [|discriminate].
    intros H; inversion H; subst; clear H.
    apply startsWith_app in E. destruct E as [r E].
    destruct sep; [reflexivity | discriminate].
  - destruct (startsWith (c :: s) sep) eqn:E.
    + intros H; inversion H; subst; clear H.
      apply startsWith_app in E. destruct E as [r E]. rewrite E.
      simpl. f_equal. rewrite skipn_app, skipn_all, Nat.sub_diag. reflexivity.
    + destruct (findFirst sep s) as [[b' a']|]; [|discriminate].
      intros H; inversion H; subst; clear H.
      simpl. f_equal. apply IH. reflexivity.
Qed.

Lemma findFirst_shorter (sep s b a : jsstring) :
  sep <> [] -> findFirst sep s = Some (b, a) -> length a < length s.
Proof.
  intros Hsep H. apply findFirst_app in H. subst s.
  rewrite !length_app. destruct sep; [congruence | simpl; lia].
Qed.

Lemma splitFuel_enough (sep : jsstring) :
  sep <> [] ->
  forall n m s, length s <= n -> length s <= m ->
    splitFuel n sep s = splitFuel m sep s.
Proof.
  intros Hsep. induction n as [|n IH]; intros m s Hn Hm.
  - destruct s; [|simpl in Hn; lia].
    destruct m; simpl; [reflexivity|].
    destruct sep; [congruence | reflexivity].
  - destruct m.
    + destruct s; [|simpl in Hm; lia].
      simpl. destruct sep; [congruence | reflexivity].
    + simpl. destruct (findFirst sep s) as [[b a]|] eqn:E; [|reflexivity].
      f_equal. apply findFirst_shorter in E; [|assumption].
      apply IH; lia.
Qed.

(** [split] with a one-unit separator, equation by equation. *)
Lemma lines_split (s : jsstring) : split s newline = lines s.
Proof.
  unfold split, newline. induction s as [|c s IH].
  - reflexivity.
  - cbn [length splitFuel lines].
    cbn [findFirst startsWith]. rewrite andb_true_r.
    destruct (N.eqb 10 c) eqn:E.
    + simpl. f_equal. exact IH.
    + rewrite <- IH.
      destruct (findFirst [10%N] s) as [[b a]|] eqn:F.
      * pose proof (findFirst_shorter [10%N] s b a ltac:(discriminate) F) as L.
        destruct s as [|c' s']; [simpl in L; lia|].
        rewrite (splitFuel_enough [10%N] ltac:(discriminate)
                   (length (c' :: s')) (length s') a) by (simpl in *; lia).
        cbn [length splitFuel]. rewrite F. reflexivity.
      * destruct s as [|c' s']; [reflexivity|].
        cbn [length splitFuel]. rewrite F. reflexivity.
Qed.

Lemma lines_nonempty (s : jsstring) : lines s <> [].
Proof.
  destruct s as [|c s]; cbn [lines]; [discriminate|].
  destruct (N.eqb 10 c); [discriminate|].
  destruct (lines s); discriminate.
Qed.

(** The lines of a concatenation: the last line of the first text and the
    first line of the second are glued. *)
Lemma lines_app (p r : jsstring) :
  lines (p ++ r) =
  removelast (lines p) ++ (last (lines p) [] ++ hd [] (lines r)) :: tl (lines r).
Proof.
  induction p as [|c p IH].
  - simpl. pose proof (lines_nonempty r). destruct (lines r); [congruence|reflexivity].
  - cbn [app lines]. destruct (N.eqb 10 c).
    + rewrite IH. pose proof (lines_nonempty p).
      destruct (lines p) eqn:E; [congruence|]. reflexivity.
    + rewrite IH. pose proof (lines_nonempty p).
      destruct (lines p) as [|l ls] eqn:E; [congruence|].
      destruct ls as [|l' ls']; reflexivity.
Qed.

Lemma lines_app_newline (p r : jsstring) :
  lines (p ++ newline ++ r) = lines p ++ lines r.
Proof.
  rewrite lines_app.
  change (lines (newline ++ r)) with ([] :: lines r). cbn [hd tl].
  pose proof (app_removelast_last [] (lines_nonempty p)) as E.
  set (a := removelast (lines p)) in *. set (b := last (lines p) []) in *.
  rewrite E, app_nil_r, <- app_assoc. reflexivity.
Qed.

(* ===================================================================== *)
(** ** The section parser *)
(* ===================================================================== *)

Section Parser.
Import AnalysisDisplay.

Lemma isHeading_nonEmpty (line : jsstring) :
  isHeading line = true -> nonEmpty line = true.
Proof.
  unfold isHeading. rewrite orb_true_iff, !startsWith_app.
  intros [[r ->] | [r ->]]; reflexivity.
Qed.

Lemma titles_app (a b : list ParsedSection) :
  titles (a ++ b) = titles a ++ titles b.
Proof. apply map_app. Qed.

Lemma titles_flush (st : ParserState) :
  titles (parsed (flushSection st)) = discovered st.
Proof.
  unfold flushSection, discovered. cbn [parsed].
  destruct (nonEmpty (currentTitle st)).
  - rewrite titles_app. reflexivity.
  - rewrite app_nil_r. reflexivity.
Qed.

Lemma discovered_step (st : ParserState) (line : jsstring) :
  discovered (step st line) =
  discovered st ++ (if isHeading line then [cleanTitle line] else []).
Proof.
  unfold step. destruct (isHeading line) eqn:H.
  - unfold discovered at 1. cbn [parsed currentTitle].
    rewrite titles_flush, (isHeading_nonEmpty _ H). reflexivity.
  - unfold discovered. cbn [parsed currentTitle].
    rewrite app_nil_r. reflexivity.
Qed.

Lemma discovered_fold (ls : list jsstring) (st : ParserState) :
  discovered (fold_left step ls st) =
  discovered st ++ map cleanTitle (filter isHeading ls).
Proof.
  revert st; induction ls as [|l ls IH]; intros st; cbn [fold_left filter].
  - rewrite app_nil_r. reflexivity.
  - rewrite IH, discovered_step.
    destruct (isHeading l); cbn [map]; rewrite <- app_assoc; reflexivity.
Qed.

(** The titles of a parse are the cleaned heading lines, in order. *)
Lemma titles_parseLines (ls : list jsstring) :
  titles (parseLines ls) = map cleanTitle (filter isHeading ls).
Proof.
  unfold parseLines. rewrite titles_flush, discovered_fold. reflexivity.
Qed.

Lemma titles_sections (T : jsstring) :
  titles (sections T) = map cleanTitle (filter isHeading (lines T)).
Proof.
  unfold sections. destruct T as [|c T]; [reflexivity|].
  cbn [nonEmpty]. rewrite lines_split. apply titles_parseLines.
Qed.

(** While no title is open, the lines collected so far do not matter. *)
Lemma pending_content_ignored (ls : list jsstring) :
  forall st1 st2,
    parsed st1 = parsed st2 ->
    currentTitle st1 = [] -> currentTitle st2 = [] ->
    parsed (flushSection (fold_left step ls st1)) =
    parsed (flushSection (fold_left step ls st2)).
Proof.
  induction ls as [|l ls IH]; intros st1 st2 Hp H1 H2; cbn [fold_left].
  - unfold flushSection. cbn [parsed]. rewrite H1, H2. exact Hp.
  - destruct (isHeading l) eqn:H.
    + assert (E : step st1 l = step st2 l).
      { unfold step. rewrite H. unfold flushSection.
        cbn [parsed currentContent]. rewrite H1, H2, Hp. reflexivity. }
      rewrite E. reflexivity.
    + apply IH; unfold step; rewrite H; cbn [parsed currentTitle]; assumption.
Qed.

Lemma preamble_state (pre : list jsstring) (st : ParserState) :
  forallb notHeading pre = true ->
  parsed (fold_left step pre st) = parsed st /\
  currentTitle (fold_left step pre st) = currentTitle st.
Proof.
  revert st; induction pre as [|l pre IH]; intros st; cbn [fold_left forallb].
  - auto.
  - rewrite andb_true_iff. unfold notHeading at 1.
    rewrite negb_true_iff. intros [H Hpre].
    destruct (IH (step st l) Hpre) as [-> ->].
    unfold step. rewrite H. auto.
Qed.

Lemma parseLines_preamble (pre rest : list jsstring) :
  forallb notHeading pre = true ->
  parseLines (pre ++ rest) = parseLines rest.
Proof.
  intros Hpre. unfold parseLines. rewrite fold_left_app.
  destruct (preamble_state pre initial Hpre) as [Hp Ht].
  apply pending_content_ignored; [exact Hp | exact Ht | reflexivity].
Qed.

End Parser.

(** C1. For the text of the specification's example (a heading "Problem
    Detected" marked with an emoji, the line "- pollution", a heading "Root
    Cause" marked with an emoji, the line "contamination", each ended by a
    line break) the parser returns exactly two sections, in order: "Problem Detected" (list, danger) with content "- pollution", then
    "Root Cause" (text, info) with content "contamination"; the second one is
    flushed at the end of the input, which no heading follows. *)
Theorem C1_example_sections :
  AnalysisDisplay.sections exampleMarkdown =
  [ AnalysisDisplay.mkSection (js "Problem Detected")
      (js "fa-triangle-exclamation") (js "- pollution")
      AnalysisDisplay.TypeList AnalysisDisplay.ThemeDanger;
    AnalysisDisplay.mkSection (js "Root Cause") (js "fa-dna")
      (js "contamination")
      AnalysisDisplay.TypeText AnalysisDisplay.ThemeInfo ].
Proof. vm_compute. reflexivity. Qed.

(** C8, as the specification states it, fails: the prefix ["## Ab"] of
    ["## Abc"] parses to the title "Ab", which the parse of the whole text
    (title "Abc") does not contain. *)
Lemma C8_prefix_cut_inside_heading :
  extends (js "## Ab") (js "## Abc") /\
  In (js "Ab") (titles (AnalysisDisplay.sections (js "## Ab"))) /\
  ~ In (js "Ab") (titles (AnalysisDisplay.sections (js "## Abc"))).
Proof.
  split; [exists (js "c"); reflexivity|].
  split; vm_compute; [left; reflexivity|].
  intros [H | []]. discriminate H.
Qed.

(** C8, amended. When the prefix [p] of [p ++ r] is cut at the end of a line
    ([r] is empty or starts with a line break), or when the last line of [p]
    is not a heading line, the titles found in [p] are an initial part of the
    titles found in [p ++ r]; so every title of the parse of [p] is a title
    of the parse of the whole text. *)
Theorem C8_titles_monotone_at_line_ends (p r : jsstring) :
  r = [] \/ startsWith r newline = true \/
  AnalysisDisplay.isHeading (last (split p newline) []) = false ->
  extends (titles (AnalysisDisplay.sections p))
          (titles (AnalysisDisplay.sections (p ++ r))) /\
  forall t, In t (titles (AnalysisDisplay.sections p)) ->
            In t (titles (AnalysisDisplay.sections (p ++ r))).
Proof.
  intros H.
  assert (E : extends (titles (AnalysisDisplay.sections p))
                      (titles (AnalysisDisplay.sections (p ++ r)))).
  { rewrite !titles_sections. destruct H as [-> | [H | H]].
    - rewrite app_nil_r. exists []. rewrite app_nil_r. reflexivity.
    - apply startsWith_app in H. destruct H as [r' ->].
      rewrite lines_app_newline, filter_app, map_app. eexists; reflexivity.
    - rewrite lines_split in H. rewrite lines_app.
      assert (F : filter AnalysisDisplay.isHeading (lines p) =
                  filter AnalysisDisplay.isHeading (removelast (lines p))).
      { rewrite (app_removelast_last [] (lines_nonempty p)) at 1.
        rewrite filter_app. cbn [filter].
        match goal with
        | |- _ ++ (if ?c then _ else _) = _ =>
            replace c with false by (symmetry; exact H)
        end.
        apply app_nil_r. }
      rewrite F, filter_app, map_app. eexists; reflexivity. }
  split; [exact E|].
  destruct E as [d ->]. intros t Ht. apply in_or_app. left. exact Ht.
Qed.

Lemma C8_titles_monotone_witness :
  extends (titles (AnalysisDisplay.sections (js "## Ab")))
          (titles (AnalysisDisplay.sections (js "## Ab" ++ newline ++ js "## C"))) /\
  forall t, In t (titles (AnalysisDisplay.sections (js "## Ab"))) ->
            In t (titles (AnalysisDisplay.sections
                            (js "## Ab" ++ newline ++ js "## C"))).
Proof.
  apply (C8_titles_monotone_at_line_ends (js "## Ab") (newline ++ js "## C")).
  right; left. reflexivity.
Defined.

(** C10. Lines before the first heading line are discarded: a text none of
    whose lines is a heading parses to no section at all, and putting such
    lines in front of a text does not change its parse, so they reach no
    section's content. *)
Theorem C10_preamble_discarded :
  (forall T : jsstring,
      forallb notHeading (split T newline) = true ->
      AnalysisDisplay.sections T = []) /\
  (forall p r : jsstring,
      forallb notHeading (split p newline) = true ->
      AnalysisDisplay.sections (p ++ newline ++ r) = AnalysisDisplay.sections r).
Proof.
  split.
  - intros T H. unfold AnalysisDisplay.sections.
    destruct (nonEmpty T); [|reflexivity].
    rewrite <- (app_nil_r (split T newline)).
    rewrite (parseLines_preamble _ [] H). reflexivity.
  - intros p r H. unfold AnalysisDisplay.sections.
    replace (nonEmpty (p ++ newline ++ r)) with true
      by (destruct p; reflexivity).
    rewrite !lines_split in *. rewrite lines_app_newline.
    rewrite (parseLines_preamble _ _ H).
    destruct r as [|c r]; reflexivity.
Qed.

Lemma C10_preamble_discarded_witness :
  AnalysisDisplay.sections (js "no heading here") = [] /\
  AnalysisDisplay.sections (js "intro" ++ newline ++ js "## Root Cause") =
  AnalysisDisplay.sections (js "## Root Cause").
Proof.
  split.
  - apply (proj1 C10_preamble_discarded). reflexivity.
  - apply (proj2 C10_preamble_discarded (js "intro") (js "## Root Cause")).
    reflexivity.
Defined.

(* ===================================================================== *)
(** ** Error messages *)
(* ===================================================================== *)

Lemma includes_object_marker :
  includes (js "[object Object]") (js "[object Object]") = true.
Proof. vm_compute. reflexivity. Qed.

(** A message that passes the final filter of [extractErrorMessage] is not
    one of the two artifacts. *)
Lemma filter_passed (msg : jsstring) :
  includes msg (js "[object Object]") || eqb msg (js "{}") = false ->
  msg <> js "[object Object]" /\ msg <> js "{}".
Proof.
  rewrite orb_false_iff. intros [Hi He]. split; intros ->.
  - rewrite includes_object_marker in Hi. discriminate.
  - rewrite eqb_refl in He. discriminate.
Qed.

(** C7. [extractErrorMessage] never returns ["[object Object]"] nor ["{}"],
    whatever the error value is; for the empty object [{}] it returns the
    fixed message "An unknown system error occurred." and not the
    stringification ["{}"]. *)
Theorem C7_no_serialization_artifact :
  (forall error : JsValue.t,
      extractErrorMessage error <> js "[object Object]" /\
      extractErrorMessage error <> js "{}") /\
  stringify (JObject false []) = Returns (Some (js "{}")) /\
  extractErrorMessage (JObject false []) =
  js "An unknown system error occurred.".
Proof.
  split; [|split; vm_compute; reflexivity].
  intros error. unfold extractErrorMessage.
  match goal with
  | |- context [includes ?m (js "[object Object]") || eqb ?m (js "{}")] =>
      set (msg := m)
  end.
  destruct (includes msg (js "[object Object]") || eqb msg (js "{}")) eqn:E.
  - destruct (genuineString (get error (js "statusText")));
      split; intros H; vm_compute in H; discriminate H.
  - apply filter_passed. exact E.
Qed.

(* ===================================================================== *)
(** ** The streaming loops *)
(* ===================================================================== *)

Lemma extends_refl {A} (a : list A) : extends a a.
Proof. exists []. symmetry. apply app_nil_r. Qed.

Lemma extends_trans {A} (a b c : list A) :
  extends a b -> extends b c -> extends a c.
Proof. intros [d ->] [e ->]. exists (d ++ e). symmetry. apply app_assoc. Qed.

Lemma extends_length {A} (a b : list A) : extends a b -> length a <= length b.
Proof. intros [d ->]. rewrite length_app. lia. Qed.

Lemma appendText_extends (fullText : jsstring) (chunk : Provider.Chunk) :
  extends fullText (appendText fullText chunk).
Proof.
  unfold appendText. destruct (Provider.text chunk) as [t|].
  - destruct (nonEmpty t); [exists t; reflexivity | apply extends_refl].
  - apply extends_refl.
Qed.

Lemma accumulate_extends (acc : GroundingMetadata) (chunk : Provider.Chunk) :
  extends (groundingChunks acc) (groundingChunks (accumulate acc chunk)).
Proof.
  unfold accumulate. destruct (chunkMetadata chunk) as [md|].
  - destruct (Provider.groundingChunks md) as [gs|],
             (Provider.webSearchQueries md) as [qs|]; cbn [groundingChunks];
      try apply extends_refl; exists gs; reflexivity.
  - apply extends_refl.
Qed.

Lemma exec_bind {S A B} (m : M S A) (k : A -> M S B) (s : S) :
  exec (bind m k) s = exec (k (eval m s)) (exec m s).
Proof. unfold exec, eval, bind. destruct (m s). reflexivity. Qed.

Lemma eval_bind {S A B} (m : M S A) (k : A -> M S B) (s : S) :
  eval (bind m k) s = eval (k (eval m s)) (exec m s).
Proof. unfold exec, eval, bind. destruct (m s). reflexivity. Qed.

(** What the recording callback has written when the analysis loop ends:
    one update per chunk, each extending the text and the grounding chunks
    of all the earlier ones. *)
Lemma analyzeLoop_record (chunks : list Provider.Chunk) :
  forall (fullText : jsstring) (acc : GroundingMetadata) (log : list Update),
  exists updates,
    exec (analyzeLoop record chunks fullText acc) log = log ++ updates /\
    length updates = length chunks /\
    Forall (fun u => extends fullText (fst u) /\
                     extends (groundingChunks acc) (chunksOf u) /\
                     snd u <> None) updates /\
    StronglySorted (fun u v => extends (fst u) (fst v) /\
                               extends (chunksOf u) (chunksOf v)) updates.
Proof.
  induction chunks as [|chunk rest IH]; intros fullText acc log.
  - exists []. cbn. rewrite app_nil_r. repeat split; constructor.
  - cbn [analyzeLoop]. rewrite exec_bind.
    set (fullText' := appendText fullText chunk).
    set (acc' := accumulate acc chunk).
    destruct (IH fullText' acc' (log ++ [(fullText', Some acc')]))
      as (updates & Hlog & Hlen & Hall & Hsorted).
    exists ((fullText', Some acc') :: updates).
    split; [|split; [|split]].
    + change (exec (record fullText' (Some acc')) log)
        with (log ++ [(fullText', Some acc')]).
      rewrite Hlog, <- app_assoc. reflexivity.
    + cbn [length]. rewrite Hlen. reflexivity.
    + constructor.
      * cbn. repeat split;
          [apply appendText_extends | apply accumulate_extends | discriminate].
      * eapply Forall_impl; [|exact Hall]. cbn. intros u (Ht & Hg & Hs).
        repeat split; [| |exact Hs].
        -- eapply extends_trans; [apply appendText_extends | exact Ht].
        -- eapply extends_trans; [apply accumulate_extends | exact Hg].
    + constructor; [exact Hsorted|].
      eapply Forall_impl; [|exact Hall]. cbn. intros u (Ht & Hg & _).
      split; assumption.
Qed.

(** The same for the continuation loop, which passes the text alone. *)
Lemma continueLoop_record (chunks : list Provider.Chunk) :
  forall (fullText : jsstring) (log : list Update),
  exists updates,
    exec (continueLoop record chunks fullText) log = log ++ updates /\
    length updates = length chunks /\
    Forall (fun u => extends fullText (fst u) /\ snd u = None) updates.
Proof.
  induction chunks as [|chunk rest IH]; intros fullText log.
  - exists []. cbn. rewrite app_nil_r. repeat split; constructor.
  - cbn [continueLoop]. rewrite exec_bind.
    set (fullText' := appendText fullText chunk).
    destruct (IH fullText' (log ++ [(fullText', None)]))
      as (updates & Hlog & Hlen & Hall).
    exists ((fullText', None) :: updates).
    split; [|split].
    + change (exec (record fullText' None) log)
        with (log ++ [(fullText', None)]).
      rewrite Hlog, <- app_assoc. reflexivity.
    + cbn [length]. rewrite Hlen. reflexivity.
    + constructor.
      * cbn. split; [apply appendText_extends | reflexivity].
      * eapply Forall_impl; [|exact Hall]. cbn. intros u (Ht & Hs).
        split; [|exact Hs].
        eapply extends_trans; [apply appendText_extends | exact Ht].
Qed.

(** The updates of one [analyzeContentStream] call, as the recording
    callback sees them. *)
Lemma analyzeContentStream_record (API_KEY : option jsstring)
    (api : Provider.Api) (textInput : jsstring)
    (base64Image imageMimeType base64Audio audioMimeType : option jsstring) :
  present API_KEY = true ->
  exec (analyzeContentStream API_KEY api textInput base64Image imageMimeType
          base64Audio audioMimeType record) [] =
  exec (analyzeLoop record
          (Provider.chunks
             (api [mkContent user
                     (analysisParts textInput base64Image imageMimeType
                        base64Audio audioMimeType)]))
          [] (mkGrounding [] None)) [].
Proof.
  intros Hkey. unfold analyzeContentStream. rewrite Hkey. cbn [negb].
  rewrite exec_bind.
  destruct (Provider.failure _); reflexivity.
Qed.

Lemma StronglySorted_impl {A} (R R' : A -> A -> Prop) (l : list A) :
  (forall x y, R x y -> R' x y) -> StronglySorted R l -> StronglySorted R' l.
Proof.
  intros HR. induction 1 as [|x l Hs IH Hall]; constructor.
  - exact IH.
  - eapply Forall_impl; [|exact Hall]. intros y. apply HR.
Qed.

(** C5. In one streaming analysis call the callback is invoked exactly once
    per chunk the provider yields, whether or not the chunk carries text, and
    the text of each invocation is an initial part of the text of every
    later one; its length never decreases. *)
Theorem C5_one_update_per_chunk (API_KEY : option jsstring)
    (api : Provider.Api) (textInput : jsstring)
    (base64Image imageMimeType base64Audio audioMimeType : option jsstring) :
  present API_KEY = true ->
  let chunks :=
    Provider.chunks
      (api [mkContent user
              (analysisParts textInput base64Image imageMimeType base64Audio
                 audioMimeType)]) in
  let updates :=
    exec (analyzeContentStream API_KEY api textInput base64Image imageMimeType
            base64Audio audioMimeType record) [] in
  length updates = length chunks /\
  StronglySorted (fun u v => extends (fst u) (fst v)) updates /\
  StronglySorted (fun u v => length (fst u) <= length (fst v)) updates.
Proof.
  intros Hkey chunks updates. subst updates.
  rewrite analyzeContentStream_record by exact Hkey. fold chunks.
  destruct (analyzeLoop_record chunks [] (mkGrounding [] None) [])
    as (updates & -> & Hlen & _ & Hsorted).
  cbn [app]. split; [exact Hlen|]. split.
  - eapply StronglySorted_impl; [|exact Hsorted]. cbn. tauto.
  - eapply StronglySorted_impl; [|exact Hsorted]. cbn.
    intros u v [H _]. apply extends_length. exact H.
Qed.

Lemma C5_one_update_per_chunk_witness :
  let updates :=
    exec (analyzeContentStream exampleKey exampleApi (js "check this river")
            None None None None record) [] in
  length updates = 3 /\
  StronglySorted (fun u v => extends (fst u) (fst v)) updates /\
  StronglySorted (fun u v => length (fst u) <= length (fst v)) updates.
Proof.
  apply (C5_one_update_per_chunk exampleKey exampleApi (js "check this river")
           None None None None).
  reflexivity.
Defined.

(* ===================================================================== *)
(** ** The rendered sources *)
(* ===================================================================== *)

Section Sources.
Import AnalysisDisplay.

Lemma mapSet_keys (m : list (jsstring * WebSource.t)) k v k' :
  In k' (map fst (mapSet m k v)) <-> k' = k \/ In k' (map fst m).
Proof.
  induction m as [|[k0 v0] m IH]; cbn [mapSet map fst In].
  - intuition congruence.
  - destruct (eqb k0 k) eqn:E; cbn [map fst In].
    + apply eqb_eq in E. subst. intuition congruence.
    + rewrite IH. intuition congruence.
Qed.

Lemma mapSet_NoDup (m : list (jsstring * WebSource.t)) k v :
  NoDup (map fst m) -> NoDup (map fst (mapSet m k v)).
Proof.
  induction m as [|[k0 v0] m IH]; cbn [mapSet map fst].
  - intros _. repeat constructor. intros [].
  - intros H. inversion H as [|? ? Hnotin Hnodup]; subst.
    destruct (eqb k0 k) eqn:E; cbn [map fst].
    + constructor; assumption.
    + constructor; [|apply IH; exact Hnodup].
      rewrite mapSet_keys. intros [-> | Hin]; [|contradiction].
      rewrite eqb_refl in E. discriminate.
Qed.

Lemma mapSet_keyed (m : list (jsstring * WebSource.t)) item :
  Forall keyed m -> Forall keyed (mapSet m (WebSource.uri item) item).
Proof.
  induction m as [|[k0 v0] m IH]; cbn [mapSet]; intros H.
  - repeat constructor.
  - inversion H; subst. destruct (eqb k0 (WebSource.uri item)) eqn:E.
    + constructor; [|assumption]. apply eqb_eq in E. exact E.
    + constructor; [assumption | apply IH; assumption].
Qed.

Lemma mapSet_In_same (m : list (jsstring * WebSource.t)) k v :
  In (k, v) (mapSet m k v).
Proof.
  induction m as [|[k0 v0] m IH]; cbn [mapSet]; [left; reflexivity|].
  destruct (eqb k0 k) eqn:E.
  - apply eqb_eq in E. subst. left; reflexivity.
  - right. exact IH.
Qed.

Lemma mapSet_In_other (m : list (jsstring * WebSource.t)) k v k' v' :
  k' <> k -> In (k', v') m -> In (k', v') (mapSet m k v).
Proof.
  intros Hk. induction m as [|[k0 v0] m IH]; cbn [mapSet]; [intros []|].
  intros [H | H]; destruct (eqb k0 k) eqn:E.
  - inversion H; subst. apply eqb_eq in E. congruence.
  - left. exact H.
  - right. exact H.
  - right. apply IH. exact H.
Qed.

Lemma collect_invariant (sources : list WebSource.t) :
  forall m, NoDup (map fst m) -> Forall keyed m ->
            NoDup (map fst (collect sources m)) /\
            Forall keyed (collect sources m).
Proof.
  induction sources as [|s sources IH]; intros m Hn Hk; cbn; [auto|].
  apply IH; [apply mapSet_NoDup | apply mapSet_keyed]; assumption.
Qed.

Lemma collect_keeps (sources : list WebSource.t) :
  forall m k v, In (k, v) m -> ~ In k (map WebSource.uri sources) ->
                In (k, v) (collect sources m).
Proof.
  induction sources as [|s sources IH]; intros m k v Hin Hk; cbn; [exact Hin|].
  apply IH.
  - apply mapSet_In_other; [|exact Hin]. intros ->. apply Hk. left; reflexivity.
  - intros H. apply Hk. right. exact H.
Qed.

Lemma keyed_uris (es : list (jsstring * WebSource.t)) :
  Forall keyed es -> map WebSource.uri (map snd es) = map fst es.
Proof.
  induction 1 as [|e es He _ IH]; cbn [map]; [reflexivity|].
  rewrite IH, He. reflexivity.
Qed.

(** No URI is listed twice. *)
Lemma uniqueSources_NoDup (sources : list WebSource.t) :
  NoDup (map WebSource.uri (uniqueSources sources)).
Proof.
  unfold uniqueSources. fold (collect sources []).
  destruct (collect_invariant sources [] (NoDup_nil _) (Forall_nil _))
    as [Hn Hk].
  rewrite (keyed_uris _ Hk). exact Hn.
Qed.

(** For a repeated URI, the last source carrying it is the one listed. *)
Lemma uniqueSources_last_wins (before after : list WebSource.t)
    (s : WebSource.t) :
  ~ In (WebSource.uri s) (map WebSource.uri after) ->
  In s (uniqueSources (before ++ s :: after)).
Proof.
  intros H. unfold uniqueSources.
  change s with (snd (WebSource.uri s, s)) at 1. apply in_map.
  rewrite fold_left_app. cbn [fold_left].
  apply (collect_keeps after); [apply mapSet_In_same | exact H].
Qed.

End Sources.

(** C6. The grounding accumulator is append-only: the chunk list given to an
    update is an initial part of the list given to every later update.
    Rendering keeps one entry per source URI, the last chunk with that URI;
    for chunks with URIs "a", "b", "a" arriving in three updates the rendered
    lists are [a], [a; b] and finally the 2 entries [a (third chunk); b]. *)
Theorem C6_grounding_append_only_and_deduplicated :
  (forall (API_KEY : option jsstring) (api : Provider.Api)
          (textInput : jsstring)
          (base64Image imageMimeType base64Audio audioMimeType : option jsstring),
      present API_KEY = true ->
      StronglySorted (fun u v => extends (chunksOf u) (chunksOf v))
        (exec (analyzeContentStream API_KEY api textInput base64Image
                 imageMimeType base64Audio audioMimeType record) [])) /\
  (forall sources : list WebSource.t,
      NoDup (map WebSource.uri (AnalysisDisplay.uniqueSources sources))) /\
  (forall (before after : list WebSource.t) (s : WebSource.t),
      ~ In (WebSource.uri s) (map WebSource.uri after) ->
      In s (AnalysisDisplay.uniqueSources (before ++ s :: after))) /\
  map (fun u => AnalysisDisplay.renderGrounding (snd u))
    (exec (analyzeContentStream exampleKey exampleApi (js "check this river")
             None None None None record) []) =
  [ Some [WebSource.mk (js "a") (js "first")];
    Some [WebSource.mk (js "a") (js "first");
          WebSource.mk (js "b") (js "second")];
    Some [WebSource.mk (js "a") (js "third");
          WebSource.mk (js "b") (js "second")] ].
Proof.
  split; [|split; [|split]].
  - intros API_KEY api textInput bi mi ba ma Hkey.
    rewrite analyzeContentStream_record by exact Hkey.
    destruct (analyzeLoop_record
                (Provider.chunks
                   (api [mkContent user (analysisParts textInput bi mi ba ma)]))
                [] (mkGrounding [] None) [])
      as (updates & -> & _ & _ & Hsorted).
    cbn [app]. eapply StronglySorted_impl; [|exact Hsorted]. cbn. tauto.
  - exact uniqueSources_NoDup.
  - exact uniqueSources_last_wins.
  - vm_compute. reflexivity.
Qed.

Lemma C6_grounding_witness :
  StronglySorted (fun u v => extends (chunksOf u) (chunksOf v))
    (exec (analyzeContentStream exampleKey exampleApi (js "check this river")
             None None None None record) []) /\
  In (WebSource.mk (js "a") (js "third"))
     (AnalysisDisplay.uniqueSources
        ([WebSource.mk (js "a") (js "first");
          WebSource.mk (js "b") (js "second")]
         ++ WebSource.mk (js "a") (js "third") :: [])).
Proof.
  split.
  - apply (proj1 C6_grounding_append_only_and_deduplicated). reflexivity.
  - apply (proj1 (proj2 (proj2 C6_grounding_append_only_and_deduplicated))).
    cbn. tauto.
Defined.

(* ===================================================================== *)
(** ** Requests: the continuation turns and the encoded parts *)
(* ===================================================================== *)

Lemma fold_left_push {A B} (f : A -> B) (l : list A) (init : list B) :
  fold_left (fun acc x => acc ++ [f x]) l init = init ++ map f l.
Proof.
  revert init; induction l as [|x l IH]; intros init; cbn.
  - symmetry. apply app_nil_r.
  - rewrite IH, <- app_assoc. reflexivity.
Qed.

Lemma continuationContents_shape (history : list ChatMessage.t)
    (newMessage : jsstring) (initialContextParts : list Part) :
  continuationContents history newMessage initialContextParts =
  (match initialContextParts with
   | [] => []
   | _ :: _ => [mkContent user initialContextParts]
   end) ++ map turnOf history ++ [mkContent user [TextPart newMessage]].
Proof.
  unfold continuationContents.
  rewrite (fold_left_push turnOf), <- app_assoc.
  destruct initialContextParts; reflexivity.
Qed.

(** C3, as the specification states it, fails for an empty list of original
    parts: the request does not open with a user turn holding no part, it
    has no opening turn at all. *)
Lemma C3_empty_context_has_no_opening_turn :
  continuationContents [] (js "hello") [] <>
  mkContent user [] :: map turnOf [] ++ [mkContent user [TextPart (js "hello")]].
Proof. vm_compute. discriminate. Qed.

(** C3, amended. When the original context parts are not empty, the turns of
    a continuation request are: a user turn with exactly these parts, then
    one turn per prior message, in order, with the message's role and its
    text as the only part, then a user turn with the new message as its only
    part.  When there are no original parts, the opening turn is left out.
    No update of the continuation stream carries grounding metadata. *)
Theorem C3_continuation_turns (history : list ChatMessage.t)
    (newMessage : jsstring) (initialContextParts : list Part) :
  (initialContextParts <> [] ->
   continuationContents history newMessage initialContextParts =
   mkContent user initialContextParts ::
   map turnOf history ++ [mkContent user [TextPart newMessage]]) /\
  continuationContents history newMessage [] =
  map turnOf history ++ [mkContent user [TextPart newMessage]] /\
  forall (API_KEY : option jsstring) (api : Provider.Api),
    Forall (fun u : Update => snd u = None)
      (exec (continueConversationStream API_KEY api history newMessage
               initialContextParts record) []).
Proof.
  split; [|split].
  - intros H. rewrite continuationContents_shape.
    destruct initialContextParts; [congruence | reflexivity].
  - apply continuationContents_shape.
  - intros API_KEY api. unfold continueConversationStream.
    destruct (present API_KEY); cbn [negb]; [|constructor].
    rewrite exec_bind.
    destruct (continueLoop_record
                (Provider.chunks
                   (api (continuationContents history newMessage
                           initialContextParts))) [] [])
      as (updates & E & _ & Hall).
    cbn [app] in E.
    destruct (Provider.failure _); cbn; fold Update; rewrite E;
      (eapply Forall_impl; [|exact Hall]); cbn; tauto.
Qed.

Lemma C3_continuation_turns_witness :
  continuationContents
    [ChatMessage.mk model (js "report") 0%Z] (js "hello")
    [TextPart (js "check this river")] =
  [ mkContent user [TextPart (js "check this river")];
    mkContent model [TextPart (js "report")];
    mkContent user [TextPart (js "hello")] ].
Proof.
  apply (proj1 (C3_continuation_turns
                  [ChatMessage.mk model (js "report") 0%Z] (js "hello")
                  [TextPart (js "check this river")])).
  discriminate.
Defined.

(** When some input is given and every medium is a data URL with a type,
    the captured context and the request parts do agree. *)
Lemma context_agrees_on_data_urls (text : jsstring)
    (fileData : option FileData) (audioData : option AudioData) :
  let wellFormed (m : option MediaData) :=
    match m with
    | Some d => includes (base64 d) (js "base64,") && nonEmpty (base64 d)
                && nonEmpty (mimeType d)
    | None => true
    end in
  wellFormed fileData = true -> wellFormed audioData = true ->
  (nonEmpty text = true \/ fileData <> None \/ audioData <> None) ->
  App.contextParts text fileData audioData =
  analysisParts text (option_map base64 fileData) (option_map mimeType fileData)
    (option_map base64 audioData) (option_map mimeType audioData).
Proof.
  intros wellFormed Hf Ha Hsome.
  unfold App.contextParts, analysisParts, App.afterMarker, cleanBase64.
  destruct fileData as [f|], audioData as [a|]; cbn in Hf, Ha |- *;
    repeat match goal with
      | H : _ && _ = true |- _ => apply andb_true_iff in H; destruct H
      end;
    repeat match goal with
      | H : ?b = true |- context [?b] => rewrite H
      end; cbn;
    destruct (nonEmpty text) eqn:E; cbn; try reflexivity.
  destruct Hsome as [H | [H | H]]; congruence.
Qed.

(** C4 is violated by the code.  With nothing supplied, the captured context
    is the prompt "Analyze world data." while the request carried the long
    default prompt; for a dropped file of unknown type the context holds the
    file while the request left it out. *)
Theorem C4_context_differs_from_request :
  App.contextParts [] None None = [TextPart (js "Analyze world data.")] /\
  analysisParts [] None None None None = [TextPart defaultPrompt] /\
  App.contextParts [] None None <> analysisParts [] None None None None /\
  App.contextParts [] (Some untypedFile) None =
    [InlineData (Some (js "AAAA")) []] /\
  analysisParts [] (Some (base64 untypedFile)) (Some (mimeType untypedFile))
    None None = [TextPart defaultPrompt].
Proof.
  repeat split; try (vm_compute; reflexivity).
  vm_compute. discriminate.
Qed.

Lemma marker_value : js "base64," = [98; 97; 115; 101; 54; 52; 44]%N.
Proof. reflexivity. Qed.

Lemma startsWith_marker_comma (s : jsstring) :
  startsWith s (js "base64,") = true -> nth_error s 6 = Some comma.
Proof.
  intros H. apply startsWith_app in H. destruct H as [r ->]. reflexivity.
Qed.

Lemma marker_not_inside (p d : jsstring) :
  ~ In comma p -> p <> [] ->
  startsWith (p ++ js "base64," ++ d) (js "base64,") = false.
Proof.
  intros Hp Hne.
  destruct (startsWith (p ++ js "base64," ++ d) (js "base64,")) eqn:E;
    [|reflexivity].
  apply startsWith_marker_comma in E. rewrite marker_value in E.
  unfold comma in *.
  destruct p as [|c1 [|c2 [|c3 [|c4 [|c5 [|c6 [|c7 p]]]]]]];
    cbn in E; try congruence; try discriminate E.
  exfalso. apply Hp. inversion E; subst. cbn. tauto.
Qed.

Lemma findFirst_marker (p d : jsstring) :
  ~ In comma p -> findFirst (js "base64,") (p ++ js "base64," ++ d) = Some (p, d).
Proof.
  induction p as [|c p IH]; intros Hp.
  - rewrite marker_value. reflexivity.
  - cbn [app findFirst].
    change (c :: p ++ js "base64," ++ d) with ((c :: p) ++ js "base64," ++ d).
    rewrite marker_not_inside by (assumption || discriminate).
    rewrite IH; [reflexivity|]. intros H. apply Hp. right. exact H.
Qed.

Lemma findFirst_without_comma (d : jsstring) :
  ~ In comma d -> findFirst (js "base64,") d = None.
Proof.
  induction d as [|c d IH]; intros Hd; [reflexivity|].
  cbn [findFirst].
  destruct (startsWith (c :: d) (js "base64,")) eqn:E.
  - exfalso. apply Hd. apply startsWith_marker_comma in E.
    apply nth_error_In in E. exact E.
  - rewrite IH; [reflexivity|]. intros H. apply Hd. right. exact H.
Qed.

(** The payload of a data URL: what follows ["base64,"]. *)
Lemma cleanBase64_data_url (p d : jsstring) :
  ~ In comma p -> ~ In comma d ->
  cleanBase64 (p ++ js "base64," ++ d) = Some d.
Proof.
  intros Hp Hd. unfold cleanBase64, includes, split.
  rewrite findFirst_marker by exact Hp.
  destruct (length (p ++ js "base64," ++ d)) as [|n] eqn:L.
  - rewrite !length_app in L. cbn in L. lia.
  - cbn [splitFuel]. rewrite findFirst_marker by exact Hp.
    destruct n; cbn [splitFuel nth_error]; [reflexivity|].
    rewrite findFirst_without_comma by exact Hd. reflexivity.
Qed.

Lemma cleanBase64_plain (b : jsstring) :
  includes b (js "base64,") = false -> cleanBase64 b = Some b.
Proof. intros H. unfold cleanBase64. rewrite H. reflexivity. Qed.

Lemma analysisParts_shape (textInput : jsstring)
    (base64Image imageMimeType base64Audio audioMimeType : option jsstring) :
  analysisParts textInput base64Image imageMimeType base64Audio audioMimeType =
  let media :=
    mediaPart base64Image imageMimeType ++ mediaPart base64Audio audioMimeType in
  media ++
  (if nonEmpty textInput then [TextPart textInput]
   else match media with
        | [] => [TextPart defaultPrompt]
        | _ :: _ => []
        end).
Proof.
  unfold analysisParts, mediaPart.
  destruct base64Image as [bi|], imageMimeType as [mi|],
           base64Audio as [ba|], audioMimeType as [ma|]; cbn [app];
    repeat match goal with
      | |- context [if ?b && ?c then _ else _] => destruct (b && c)
      end;
    destruct (nonEmpty textInput); reflexivity.
Qed.

Lemma mediaPart_inline (b m : option jsstring) :
  forallb isInlineData (mediaPart b m) = true.
Proof.
  unfold mediaPart. destruct b, m; try reflexivity.
  destruct (_ && _); reflexivity.
Qed.

(** C9. The encoder emits the image part, then the audio part, then the
    text: the parts before the text are inline media, each with the mime type
    it was given and with the data-URL prefix up to ["base64,"] removed from
    its payload; a non-empty text comes last; with no medium and no text the
    result is the single default prompt; the sequence is never empty. *)
Theorem C9_media_before_text (textInput : jsstring)
    (base64Image imageMimeType base64Audio audioMimeType : option jsstring) :
  let parts :=
    analysisParts textInput base64Image imageMimeType base64Audio
      audioMimeType in
  let media :=
    mediaPart base64Image imageMimeType ++ mediaPart base64Audio audioMimeType in
  parts <> [] /\
  forallb isInlineData media = true /\
  (nonEmpty textInput = true -> parts = media ++ [TextPart textInput]) /\
  (nonEmpty textInput = false -> media <> [] -> parts = media) /\
  (nonEmpty textInput = false -> media = [] ->
   parts = [TextPart defaultPrompt]) /\
  (forall bi mi ba ma : jsstring,
      nonEmpty bi = true -> nonEmpty mi = true ->
      nonEmpty ba = true -> nonEmpty ma = true ->
      analysisParts textInput (Some bi) (Some mi) (Some ba) (Some ma) =
      InlineData (cleanBase64 bi) mi :: InlineData (cleanBase64 ba) ma ::
      (if nonEmpty textInput then [TextPart textInput] else [])) /\
  (forall p d : jsstring,
      ~ In comma p -> ~ In comma d ->
      cleanBase64 (p ++ js "base64," ++ d) = Some d) /\
  (forall b : jsstring,
      includes b (js "base64,") = false -> cleanBase64 b = Some b).
Proof.
  intros parts media. subst parts. rewrite analysisParts_shape. fold media.
  cbv zeta.
  split; [|split; [|split; [|split; [|split; [|split; [|split]]]]]].
  - destruct (nonEmpty textInput); destruct media; discriminate.
  - subst media. rewrite forallb_app, !mediaPart_inline. reflexivity.
  - intros ->. reflexivity.
  - intros -> H. destruct media; [congruence|]. apply app_nil_r.
  - intros -> ->. reflexivity.
  - intros bi mi ba ma Hbi Hmi Hba Hma. rewrite analysisParts_shape.
    unfold mediaPart. rewrite Hbi, Hmi, Hba, Hma. cbn.
    destruct (nonEmpty textInput); reflexivity.
  - exact cleanBase64_data_url.
  - exact cleanBase64_plain.
Qed.

Lemma C9_media_before_text_witness :
  analysisParts (js "check this river")
    (Some (js "data:image/png;base64,AAAA")) (Some (js "image/png"))
    (Some (js "data:audio/webm;base64,BBBB")) (Some (js "audio/webm")) =
  [ InlineData (cleanBase64 (js "data:image/png;base64,AAAA")) (js "image/png");
    InlineData (cleanBase64 (js "data:audio/webm;base64,BBBB")) (js "audio/webm");
    TextPart (js "check this river") ] /\
  cleanBase64 (js "data:image/png;" ++ js "base64," ++ js "AAAA") =
    Some (js "AAAA") /\
  cleanBase64 (js "AAAA") = Some (js "AAAA") /\
  analysisParts [] None None None None = [TextPart defaultPrompt].
Proof.
  pose proof (C9_media_before_text (js "check this river") None None None None)
    as (_ & _ & _ & _ & _ & Hboth & Hclean & Hplain).
  split; [|split; [|split]].
  - apply (Hboth (js "data:image/png;base64,AAAA") (js "image/png")
             (js "data:audio/webm;base64,BBBB") (js "audio/webm"));
      reflexivity.
  - apply Hclean; vm_compute; intuition discriminate.
  - apply Hplain. reflexivity.
  - apply (C9_media_before_text [] None None None None); reflexivity.
Defined.

(* ===================================================================== *)
(** ** The follow-up exchange *)
(* ===================================================================== *)

Section FollowUp.
Import App.

Variable time : nat -> Z.
Variable API_KEY : option jsstring.
Variable api : Provider.Api.

Lemma exec_ret {S A} (a : A) (s : S) : exec (ret a) s = s.
Proof. reflexivity. Qed.

(** A streamed update overwrites the last entry. *)
Lemma chatUpdate_history (text : jsstring) (md : option GroundingMetadata)
    (w : World) :
  chatHistory (exec (chatUpdate time text md) w) =
  setLast (chatHistory w) (ChatMessage.mk model text (time (ticks w))).
Proof. reflexivity. Qed.

Lemma setLast_length (prev : list ChatMessage.t) (x : ChatMessage.t) :
  length (setLast prev x) = length prev.
Proof.
  destruct prev as [|m prev]; [reflexivity|].
  unfold setLast. rewrite length_app, removelast_firstn_len, length_firstn.
  cbn [length]. lia.
Qed.

Lemma setLast_exchange (i u x : ChatMessage.t) (h : list ChatMessage.t) :
  ChatMessage.role x = model -> exchange i u h -> exchange i u (setLast h x).
Proof. intros Hx (m & -> & _). exists x. split; [reflexivity | exact Hx]. Qed.

Lemma continueLoop_exchange (i u : ChatMessage.t)
    (chunks : list Provider.Chunk) :
  forall (fullText : jsstring) (w : World),
    exchange i u (chatHistory w) ->
    exchange i u
      (chatHistory (exec (continueLoop (chatUpdate time) chunks fullText) w)).
Proof.
  induction chunks as [|chunk rest IH]; intros fullText w H; [exact H|].
  cbn [continueLoop]. rewrite exec_bind. apply IH.
  rewrite chatUpdate_history. apply setLast_exchange; [reflexivity | exact H].
Qed.

Lemma continueConversationStream_exchange (i u : ChatMessage.t)
    (history : list ChatMessage.t) (newMessage : jsstring)
    (parts : list Part) (w : World) :
  exchange i u (chatHistory w) ->
  exchange i u
    (chatHistory
       (exec (continueConversationStream API_KEY api history newMessage parts
                (chatUpdate time)) w)).
Proof.
  intros H. unfold continueConversationStream.
  destruct (present API_KEY); cbn [negb]; [|exact H].
  rewrite exec_bind.
  destruct (Provider.failure _); rewrite exec_ret;
    apply continueLoop_exchange; exact H.
Qed.

(** One follow-up on an empty history ends with three entries. *)
Lemma handleSendMessage_exchange (message : jsstring) (w : World)
    (analysis : AnalysisResult.t) :
  result w = Some analysis -> chatHistory w = [] ->
  exchange
    (ChatMessage.mk model (AnalysisResult.text analysis) (time (S (ticks w))))
    (ChatMessage.mk user message (time (ticks w)))
    (chatHistory (exec (handleSendMessage time API_KEY api message) w)).
Proof.
  destruct w as [il res err st vis hist parts tk]. cbn [result chatHistory ticks].
  intros -> ->. unfold exec, handleSendMessage.
  cbn -[continueConversationStream js includes chatUpdate].
  match goal with |- exchange _ _ (chatHistory (snd (?m ?w))) =>
    change (snd (m w)) with (exec m w) end.
  rewrite exec_bind.
  match goal with |- context [exec (continueConversationStream ?k ?a ?h ?m ?p ?c) ?w] =>
    pose proof (continueConversationStream_exchange
                  (ChatMessage.mk model (AnalysisResult.text analysis) (time (S tk)))
                  (ChatMessage.mk user message (time tk)) h m p w) as H;
    destruct (eval (continueConversationStream k a h m p c) w)
  end.
  - rewrite exec_ret. apply H. eexists. split; reflexivity.
  - apply setLast_exchange; [reflexivity|].
    apply H. eexists. split; reflexivity.
Qed.

End FollowUp.

(** C2. With a completed analysis and an empty chat history, one
    [handleSendMessage("hello")] leaves a history of exactly three entries:
    the model turn synthesized from the analysis text, the user turn, and one
    model reply turn.  This holds at the end of the stream and after any
    number [k] of its chunks; each streamed update overwrites the last entry
    and leaves the length of the history unchanged. *)
Theorem C2_follow_up_history (time : nat -> Z) (API_KEY : option jsstring)
    (api : Provider.Api) (w : App.World) (analysis : AnalysisResult.t) :
  App.result w = Some analysis -> App.chatHistory w = [] ->
  let initial :=
    ChatMessage.mk model (AnalysisResult.text analysis)
      (time (S (App.ticks w))) in
  let userMsg := ChatMessage.mk user (js "hello") (time (App.ticks w)) in
  let after (a : Provider.Api) :=
    App.chatHistory (exec (App.handleSendMessage time API_KEY a (js "hello")) w) in
  exchange initial userMsg (after api) /\
  length (after api) = 3 /\
  (forall k : nat,
      exchange initial userMsg (after (truncated k api)) /\
      length (after (truncated k api)) = 3) /\
  (forall (streamedText : jsstring) (md : option GroundingMetadata)
          (w' : App.World),
      let updated :=
        App.chatHistory (exec (App.chatUpdate time streamedText md) w') in
      length updated = length (App.chatHistory w') /\
      (App.chatHistory w' <> [] ->
       updated =
       removelast (App.chatHistory w') ++
       [ChatMessage.mk model streamedText (time (App.ticks w'))])).
Proof.
  intros Hres Hhist initial userMsg after.
  assert (E : forall a, exchange initial userMsg (after a)).
  { intros a. apply handleSendMessage_exchange; assumption. }
  assert (L : forall a, length (after a) = 3).
  { intros a. destruct (E a) as (m & -> & _). reflexivity. }
  split; [apply E|]. split; [apply L|]. split; [intros k; split; [apply E | apply L]|].
  intros streamedText md w' updated. subst updated.
  rewrite chatUpdate_history. split; [apply setLast_length|].
  intros Hne. destruct (App.chatHistory w'); [congruence | reflexivity].
Qed.

Lemma C2_follow_up_history_witness :
  let after :=
    App.chatHistory
      (exec (App.handleSendMessage Z.of_nat exampleKey exampleApi (js "hello"))
         exampleWorld) in
  exchange (ChatMessage.mk model (js "report") 1%Z)
           (ChatMessage.mk user (js "hello") 0%Z) after /\
  length after = 3 /\
  App.chatHistory (exec (App.chatUpdate Z.of_nat (js "partial") None)
                     (exec (App.handleSendMessage Z.of_nat exampleKey
                              exampleApi (js "hello")) exampleWorld)) =
  removelast after ++ [ChatMessage.mk model (js "partial") 6%Z].
Proof.
  pose proof (C2_follow_up_history Z.of_nat exampleKey exampleApi exampleWorld
                (AnalysisResult.mk (js "report") None) eq_refl eq_refl) as H.
  cbv zeta in H. destruct H as (H1 & H2 & _ & H4).
  split; [exact H1|]. split; [exact H2|].
  apply (H4 (js "partial") None). vm_compute. discriminate.
Defined.

(* ===================================================================== *)
(** ** More on the section parser *)
(* ===================================================================== *)

Section ParserShape.
Import AnalysisDisplay.

Lemma isHeading_app (line x : jsstring) :
  isHeading line = true -> isHeading (line ++ x) = true.
Proof.
  unfold isHeading. rewrite !orb_true_iff, !startsWith_app.
  intros [[r ->] | [r ->]]; [left | right]; exists (r ++ x);
    rewrite app_assoc; reflexivity.
Qed.

Lemma parsed_flush_extends (st : ParserState) :
  extends (parsed st) (parsed (flushSection st)).
Proof.
  unfold flushSection. cbn [parsed].
  destruct (nonEmpty (currentTitle st));
    [eexists; reflexivity | apply extends_refl].
Qed.

Lemma parsed_step_extends (st : ParserState) (line : jsstring) :
  extends (parsed st) (parsed (step st line)).
Proof.
  unfold step. destruct (isHeading line); cbn [parsed];
    [apply parsed_flush_extends | apply extends_refl].
Qed.

Lemma parsed_fold_extends (ls : list jsstring) :
  forall st, extends (parsed st) (parsed (fold_left step ls st)).
Proof.
  induction ls as [|l ls IH]; intros st; cbn [fold_left];
    [apply extends_refl|].
  eapply extends_trans; [apply parsed_step_extends | apply IH].
Qed.

Lemma parsed_run_extends (ls : list jsstring) (st : ParserState) :
  extends (parsed st) (parsed (flushSection (fold_left step ls st))).
Proof.
  eapply extends_trans; [apply parsed_fold_extends | apply parsed_flush_extends].
Qed.

Lemma removelast_extends {A} (l : list A) : extends (removelast l) l.
Proof.
  destruct l as [|a l]; [apply extends_refl|].
  exists [last (a :: l) a]. apply app_removelast_last. discriminate.
Qed.

(** Whatever is appended to the last line, and whatever lines follow, the
    sections before the last one stay. *)
Lemma last_line_grows (st : ParserState) (line x : jsstring)
    (rest : list jsstring) :
  extends (removelast (parsed (flushSection (step st line))))
          (parsed (flushSection (fold_left step rest (step st (line ++ x))))).
Proof.
  destruct (isHeading line) eqn:H.
  - assert (E : removelast (parsed (flushSection (step st line))) =
                parsed (flushSection st)).
    { unfold step at 1. rewrite H. unfold flushSection at 1.
      cbn [parsed currentTitle currentContent].
      rewrite (isHeading_nonEmpty _ H). apply removelast_last. }
    rewrite E.
    eapply extends_trans; [|apply parsed_run_extends].
    unfold step. rewrite (isHeading_app _ x H). cbn [parsed].
    apply extends_refl.
  - assert (E : extends (removelast (parsed (flushSection (step st line))))
                        (parsed st)).
    { unfold step. rewrite H. unfold flushSection.
      cbn [parsed currentTitle currentContent].
      destruct (nonEmpty (currentTitle st)).
      - rewrite removelast_last. apply extends_refl.
      - apply removelast_extends. }
    eapply extends_trans; [exact E|].
    eapply extends_trans; [apply parsed_step_extends|].
    apply parsed_run_extends.
Qed.

(** Every section of a run was built by [flushSection] from a heading line. *)
Lemma run_built (ls : list jsstring) :
  forall st,
    (currentTitle st = [] \/ isHeading (currentTitle st) = true) ->
    Forall (fun sec => exists h body, isHeading h = true /\ sec = builtFrom h body)
      (parsed st) ->
    Forall (fun sec => exists h body, isHeading h = true /\ sec = builtFrom h body)
      (parsed (flushSection (fold_left step ls st))).
Proof.
  assert (F : forall st,
             (currentTitle st = [] \/ isHeading (currentTitle st) = true) ->
             Forall (fun sec => exists h body,
                         isHeading h = true /\ sec = builtFrom h body)
               (parsed st) ->
             Forall (fun sec => exists h body,
                         isHeading h = true /\ sec = builtFrom h body)
               (parsed (flushSection st))).
  { intros st Ht Hp. unfold flushSection. cbn [parsed].
    destruct (nonEmpty (currentTitle st)) eqn:E; [|exact Hp].
    apply Forall_app. split; [exact Hp|]. constructor; [|constructor].
    destruct Ht as [Ht | Ht]; [rewrite Ht in E; discriminate|].
    exists (currentTitle st), (currentContent st). split; [exact Ht|reflexivity]. }
  induction ls as [|l ls IH]; intros st Ht Hp; cbn [fold_left].
  - apply F; assumption.
  - apply IH.
    + unfold step. destruct (isHeading l) eqn:H; cbn [currentTitle]; auto.
    + unfold step. destruct (isHeading l) eqn:H; cbn [parsed]; auto.
Qed.

Lemma sections_built (T : jsstring) :
  Forall (fun sec => exists h body, isHeading h = true /\ sec = builtFrom h body)
    (sections T).
Proof.
  unfold sections. destruct (nonEmpty T); [|constructor].
  apply run_built; [left; reflexivity | constructor].
Qed.

Lemma dropWhile_suffix (p : N -> bool) (s : jsstring) :
  exists pre, s = pre ++ dropWhile p s.
Proof.
  induction s as [|c s [pre IH]]; cbn [dropWhile]; [exists []; reflexivity|].
  destruct (p c); [|exists []; reflexivity].
  exists (c :: pre). cbn [app]. f_equal. exact IH.
Qed.

Lemma dropWhile_head (p : N -> bool) (s : jsstring) (c : N) (rest : jsstring) :
  dropWhile p s = c :: rest -> p c = false.
Proof.
  induction s as [|d s IH]; cbn [dropWhile]; [discriminate|].
  destruct (p d) eqn:E; [exact IH|].
  intros H. inversion H; subst. exact E.
Qed.

Lemma trimEnd_prefix (s : jsstring) : exists post, s = trimEnd s ++ post.
Proof.
  unfold trimEnd. destruct (dropWhile_suffix isSpace (rev s)) as [pre H].
  exists (rev pre). rewrite <- rev_app_distr, <- H. symmetry. apply rev_involutive.
Qed.

Lemma trimEnd_last (s : jsstring) (c : N) (init : jsstring) :
  trimEnd s = init ++ [c] -> isSpace c = false.
Proof.
  unfold trimEnd. intros H. apply (f_equal (@rev N)) in H.
  rewrite rev_involutive, rev_app_distr in H. cbn in H.
  eapply dropWhile_head. exact H.
Qed.

Lemma trim_trimmed (s : jsstring) : trimmed (trim s).
Proof.
  unfold trim, trimStart. split.
  - intros c rest H.
    destruct (trimEnd_prefix (dropWhile isSpace s)) as [post E].
    rewrite H in E. cbn in E. eapply dropWhile_head. exact E.
  - intros c init H. eapply trimEnd_last. exact H.
Qed.

(** A suffix of a trimmed string that does not start with white space is
    trimmed. *)
Lemma trimmed_suffix (t pre s : jsstring) :
  trimmed t -> t = pre ++ s ->
  (forall c rest, s = c :: rest -> isSpace c = false) -> trimmed s.
Proof.
  intros [_ Hlast] -> Hhead. split; [exact Hhead|].
  intros c init ->. apply (Hlast c (pre ++ init)). apply app_assoc.
Qed.

Lemma cleanTitle_trimmed (heading : jsstring) : trimmed (cleanTitle heading).
Proof.
  unfold cleanTitle.
  set (t := trim (dropWhile (fun c => N.eqb c 35 || isSpace c) heading)).
  pose proof (trim_trimmed (dropWhile (fun c => N.eqb c 35 || isSpace c) heading))
    as Ht. fold t in Ht.
  destruct t as [|c t'] eqn:E; [exact Ht|].
  destruct (negb (isWord c || isSpace c)); [|exact Ht].
  set (q := fun c => negb (isWord c || isSpace c)).
  destruct (dropWhile_suffix q (c :: t')) as [pre1 H1].
  destruct (dropWhile_suffix isSpace (dropWhile q (c :: t'))) as [pre2 H2].
  apply (trimmed_suffix (c :: t') (pre1 ++ pre2)); [exact Ht | |].
  - rewrite <- app_assoc, <- H2. exact H1.
  - intros d rest H. eapply dropWhile_head. exact H.
Qed.

End ParserShape.

(** X1. The parser finds one section per heading line (a line that starts
    with "# " or "## "), in the order of the lines, and a section's title is
    its heading line cleaned. *)
Theorem X1_one_section_per_heading (T : jsstring) :
  titles (AnalysisDisplay.sections T) =
  map AnalysisDisplay.cleanTitle
    (filter AnalysisDisplay.isHeading (split T newline)) /\
  length (AnalysisDisplay.sections T) =
  length (filter AnalysisDisplay.isHeading (split T newline)).
Proof.
  assert (E : titles (AnalysisDisplay.sections T) =
              map AnalysisDisplay.cleanTitle
                (filter AnalysisDisplay.isHeading (split T newline))).
  { rewrite lines_split. apply titles_sections. }
  split; [exact E|].
  apply (f_equal (@length jsstring)) in E. unfold titles in E.
  rewrite !length_map in E. exact E.
Qed.

(** X2. As the text grows, by any continuation at all, every section but
    the last one of the shorter text stays as it is: only the section still
    open can change. *)
Theorem X2_completed_sections_stable (p r : jsstring) :
  extends (removelast (AnalysisDisplay.sections p))
          (AnalysisDisplay.sections (p ++ r)).
Proof.
  destruct p as [|c p]; [exists (AnalysisDisplay.sections ([] ++ r)); reflexivity|].
  unfold AnalysisDisplay.sections. cbn [nonEmpty app].
  change (c :: p ++ r) with ((c :: p) ++ r).
  rewrite !lines_split, lines_app.
  rewrite (app_removelast_last [] (lines_nonempty (c :: p))) at 1.
  unfold AnalysisDisplay.parseLines.
  rewrite !fold_left_app. cbn [fold_left].
  apply last_line_grows.
Qed.

(** X3. The icon, type and theme of every parsed section are those the
    table gives for its title, the first listed key it contains deciding;
    so a section is of type header exactly when its title contains
    "GlobalSight Analysis", which is exactly when the display leaves it out. *)
Theorem X3_configuration_follows_title (T : jsstring)
    (sec : AnalysisDisplay.ParsedSection) :
  In sec (AnalysisDisplay.sections T) ->
  let config := AnalysisDisplay.lookupConfig (AnalysisDisplay.title sec) in
  AnalysisDisplay.icon sec = AnalysisDisplay.cfg_icon config /\
  AnalysisDisplay.type sec = AnalysisDisplay.cfg_type config /\
  AnalysisDisplay.theme sec = AnalysisDisplay.cfg_theme config /\
  (AnalysisDisplay.type sec = AnalysisDisplay.TypeHeader <->
   AnalysisDisplay.isRendered sec = false) /\
  ((forall k, In k (map fst AnalysisDisplay.sectionConfig) ->
              includes (AnalysisDisplay.title sec) k = false) ->
   config = AnalysisDisplay.defaultConfig).
Proof.
  intros Hin config.
  pose proof (sections_built T) as B. rewrite Forall_forall in B.
  destruct (B sec Hin) as (h & body & _ & ->).
  cbn [builtFrom AnalysisDisplay.icon AnalysisDisplay.type
       AnalysisDisplay.theme AnalysisDisplay.title] in *.
  split; [reflexivity|]. split; [reflexivity|]. split; [reflexivity|].
  unfold AnalysisDisplay.isRendered. cbn [AnalysisDisplay.title builtFrom].
  subst config. set (t := AnalysisDisplay.cleanTitle h).
  unfold AnalysisDisplay.lookupConfig, AnalysisDisplay.sectionConfig.
  cbn [find fst snd map].
  split.
  - repeat match goal with
      | |- context [includes t ?k] => destruct (includes t k)
      end; cbn; split; intros H; try discriminate H; reflexivity.
  - intros H.
    repeat match goal with
      | |- context [includes t ?k] =>
          rewrite (H k) by (cbn; tauto)
      end.
    reflexivity.
Qed.

Lemma X3_configuration_witness :
  let sec :=
    AnalysisDisplay.mkSection (js "Root Cause") (js "fa-dna")
      (js "contamination") AnalysisDisplay.TypeText AnalysisDisplay.ThemeInfo in
  AnalysisDisplay.type sec = AnalysisDisplay.TypeHeader <->
  AnalysisDisplay.isRendered sec = false.
Proof.
  intros sec.
  apply (X3_configuration_follows_title exampleMarkdown sec).
  vm_compute. right; left; reflexivity.
Defined.

(** X4. Neither the title nor the content of a parsed section starts or
    ends with white space. *)
Theorem X4_sections_are_trimmed (T : jsstring)
    (sec : AnalysisDisplay.ParsedSection) :
  In sec (AnalysisDisplay.sections T) ->
  trimmed (AnalysisDisplay.title sec) /\ trimmed (AnalysisDisplay.content sec).
Proof.
  intros Hin.
  pose proof (sections_built T) as B. rewrite Forall_forall in B.
  destruct (B sec Hin) as (h & body & _ & ->).
  split; [apply cleanTitle_trimmed | apply trim_trimmed].
Qed.

Lemma X4_sections_are_trimmed_witness :
  trimmed (js "Root Cause") /\ trimmed (js "contamination").
Proof.
  apply (X4_sections_are_trimmed exampleMarkdown
           (AnalysisDisplay.mkSection (js "Root Cause") (js "fa-dna")
              (js "contamination") AnalysisDisplay.TypeText
              AnalysisDisplay.ThemeInfo)).
  vm_compute. right; left; reflexivity.
Defined.

(* ===================================================================== *)
(** ** Rendering a section: impact and code *)
(* ===================================================================== *)

Section Rendering.
Import AnalysisDisplay.

Lemma startsWith_prefix (p r : jsstring) : startsWith (p ++ r) p = true.
Proof. apply startsWith_app. exists r. reflexivity. Qed.

Lemma includes_intro (a sub c : jsstring) : includes (a ++ sub ++ c) sub = true.
Proof.
  unfold includes. induction a as [|x a IH]; cbn [app].
  - destruct sub as [|y sub]; [destruct c; reflexivity|].
    cbn [app findFirst]. change (y :: sub ++ c) with ((y :: sub) ++ c).
    rewrite startsWith_prefix. reflexivity.
  - cbn [findFirst]. destruct (startsWith (x :: a ++ sub ++ c) sub);
      [reflexivity|].
    destruct (findFirst sub (a ++ sub ++ c)) as [[b r]|];
      [reflexivity | discriminate IH].
Qed.

Lemma includes_elim (s sub : jsstring) :
  includes s sub = true -> exists a c, s = a ++ sub ++ c.
Proof.
  unfold includes. destruct (findFirst sub s) as [[b a]|] eqn:E;
    [|discriminate].
  intros _. exists b, a. apply findFirst_app. exact E.
Qed.

Lemma includes_app_l (a b x : jsstring) :
  includes a x = true -> includes (a ++ b) x = true.
Proof.
  intros H. apply includes_elim in H. destruct H as (u & v & ->).
  rewrite <- !app_assoc. apply includes_intro.
Qed.

Lemma includes_app_r (a b x : jsstring) :
  includes b x = true -> includes (a ++ b) x = true.
Proof.
  intros H. apply includes_elim in H. destruct H as (u & v & ->).
  rewrite app_assoc. apply includes_intro.
Qed.





Lemma angle_last (u l h' : jsstring) (a : jsstring) :
  a ++ h' ++ [62%N] = u ++ l -> l <> [] -> exists l', l = l' ++ [62%N].
Proof.
  intros H Hl.
  destruct (exists_last Hl) as (l' & z & ->).
  exists l'. rewrite !app_assoc in H. apply app_inj_tail in H.
  destruct H as [_ <-]. reflexivity.
Qed.

Lemma endsAtAngle_split (l' m : jsstring) :
  m <> [] -> endsAtAngle (l' ++ [62%N] ++ m) = false.
Proof.
  intros Hm. unfold endsAtAngle.
  destruct (exists_last Hm) as (m' & z & ->).
  replace (l' ++ [62%N] ++ m' ++ [z]) with ((l' ++ [62%N] ++ m') ++ [z])
    by (rewrite <- !app_assoc; reflexivity).
  rewrite removelast_last, forallb_app. cbn [app forallb N.eqb Pos.eqb negb].
  rewrite andb_false_r. reflexivity.
Qed.

Lemma includes_at (s a x c : jsstring) :
  s = a ++ x ++ c -> includes s x = true.
Proof. intros ->. apply includes_intro. Qed.

(** Text put right after a tag that ends with [>] breaks no occurrence of a
    string in which [>] can only come last. *)
Lemma insertion_keeps (a h' ins c x : jsstring) :
  endsAtAngle x = true ->
  includes ((a ++ h' ++ [62%N]) ++ c) x = true ->
  includes ((a ++ h' ++ [62%N]) ++ ins ++ c) x = true.
Proof.
  intros Hx H. apply includes_elim in H. destruct H as (u & v & H).
  apply app_eq_app in H. destruct H as [l [[HA Hc] | [Hu Hc]]].
  - (* the occurrence starts before the insertion point *)
    apply app_eq_app in Hc. destruct Hc as [m [[Hxl Hcm] | [Hl Hv]]].
    + destruct l as [|l0 l1].
      * cbn [app] in Hxl. subst x c.
        apply (includes_at _ ((a ++ h' ++ [62%N]) ++ ins) m v).
        repeat rewrite <- app_assoc. reflexivity.
      * destruct m as [|m0 m1].
        -- rewrite app_nil_r in Hxl. subst x. rewrite HA.
           apply (includes_at _ u (l0 :: l1) (ins ++ c)).
           repeat rewrite <- app_assoc. reflexivity.
        -- exfalso.
           destruct (angle_last u (l0 :: l1) h' a HA ltac:(discriminate))
             as [l' Hl'].
           rewrite Hxl, Hl', <- app_assoc in Hx.
           rewrite endsAtAngle_split in Hx by discriminate. discriminate Hx.
    + subst l. rewrite HA.
      apply (includes_at _ u x (m ++ ins ++ c)).
      repeat rewrite <- app_assoc. reflexivity.
  - (* the occurrence lies after the insertion point *)
    subst c.
    apply (includes_at _ ((a ++ h' ++ [62%N]) ++ ins ++ l) x v).
    repeat rewrite <- app_assoc. reflexivity.
Qed.

Lemma head_tag : js "<head>" = js "<head" ++ [62%N].
Proof. reflexivity. Qed.

Lemma inject_fix (marker tags s : jsstring) :
  includes s marker = true -> inject marker tags s = s.
Proof. intros H. unfold inject. rewrite H. reflexivity. Qed.

Lemma inject_no_head (marker tags s : jsstring) :
  includes s (js "<head>") = false -> inject marker tags s = s.
Proof.
  intros H. unfold inject. destruct (includes s marker); [reflexivity|].
  unfold replaceFirst. unfold includes in H.
  destruct (findFirst (js "<head>") s); [discriminate H | reflexivity].
Qed.

Lemma inject_adds (marker tags s : jsstring) :
  includes tags marker = true -> includes s (js "<head>") = true ->
  includes (inject marker tags s) marker = true.
Proof.
  intros Ht Hh. unfold inject. destruct (includes s marker) eqn:E; [exact E|].
  unfold replaceFirst. unfold includes in Hh.
  destruct (findFirst (js "<head>") s) as [[b a]|]; [|discriminate Hh].
  apply includes_app_r, includes_app_l, includes_app_r. exact Ht.
Qed.

Lemma inject_keeps (marker tags s x : jsstring) :
  endsAtAngle x = true -> includes s x = true ->
  includes (inject marker tags s) x = true.
Proof.
  intros Hx H. unfold inject. destruct (includes s marker); [exact H|].
  unfold replaceFirst.
  destruct (findFirst (js "<head>") s) as [[b a]|] eqn:F; [|exact H].
  apply findFirst_app in F. subst s. rewrite head_tag in *.
  replace (b ++ ((js "<head" ++ [62%N]) ++ tags) ++ a)
    with ((b ++ js "<head" ++ [62%N]) ++ tags ++ a)
    by (repeat rewrite <- app_assoc; reflexivity).
  apply insertion_keeps; [exact Hx|].
  replace ((b ++ js "<head" ++ [62%N]) ++ a)
    with (b ++ (js "<head" ++ [62%N]) ++ a)
    by (repeat rewrite <- app_assoc; reflexivity).
  exact H.
Qed.

Lemma documentHead_includes :
  includes documentHead (js "<!DOCTYPE html>") = true /\
  includes documentHead (js "chart.js") = true /\
  includes documentHead (js "tailwindcss") = true /\
  includes documentHead (js "leaflet") = true.
Proof. repeat split; vm_compute; reflexivity. Qed.

Lemma tags_include :
  includes chartTag (js "chart.js") = true /\
  includes tailwindTag (js "tailwindcss") = true /\
  includes leafletTags (js "leaflet") = true.
Proof. repeat split; vm_compute; reflexivity. Qed.

(** A document with a [<head>] tag leaves the repair with the three
    libraries, its doctype and its [<head>] tag. *)
Lemma autoHeal_document (doc : jsstring) :
  includes doc (js "<!DOCTYPE html>") = true ->
  includes doc (js "<head>") = true ->
  includes (autoHeal doc) (js "<!DOCTYPE html>") = true /\
  includes (autoHeal doc) (js "chart.js") = true /\
  includes (autoHeal doc) (js "tailwindcss") = true /\
  includes (autoHeal doc) (js "leaflet") = true.
Proof.
  intros Hd Hh. unfold autoHeal. rewrite Hd. cbn [negb].
  destruct tags_include as (Tc & Tt & Tl).
  set (s1 := inject (js "chart.js") chartTag doc).
  set (s2 := inject (js "tailwindcss") tailwindTag s1).
  assert (H1 : includes s1 (js "<head>") = true)
    by (apply inject_keeps; [reflexivity | exact Hh]).
  assert (H2 : includes s2 (js "<head>") = true)
    by (apply inject_keeps; [reflexivity | exact H1]).
  assert (C1 : includes s1 (js "chart.js") = true)
    by (apply inject_adds; assumption).
  assert (C2 : includes s2 (js "tailwindcss") = true)
    by (apply inject_adds; assumption).
  repeat split.
  - do 3 (apply inject_keeps; [reflexivity|]). exact Hd.
  - do 2 (apply inject_keeps; [reflexivity|]). exact C1.
  - apply inject_keeps; [reflexivity | exact C2].
  - apply inject_adds; assumption.
Qed.

Lemma autoHeal_wrap (snippet : jsstring) :
  includes snippet (js "<!DOCTYPE html>") = false ->
  autoHeal snippet = documentHead ++ snippet ++ documentTail /\
  includes (autoHeal snippet) (js "<!DOCTYPE html>") = true /\
  includes (autoHeal snippet) (js "chart.js") = true /\
  includes (autoHeal snippet) (js "tailwindcss") = true /\
  includes (autoHeal snippet) (js "leaflet") = true.
Proof.
  intros H. unfold autoHeal. rewrite H. cbn [negb].
  destruct documentHead_includes as (Hd & Hc & Ht & Hl).
  repeat split; apply includes_app_l; assumption.
Qed.

Lemma autoHeal_no_head (doc : jsstring) :
  includes doc (js "<!DOCTYPE html>") = true ->
  includes doc (js "<head>") = false ->
  autoHeal doc = doc.
Proof.
  intros Hd Hh. unfold autoHeal. rewrite Hd. cbn [negb].
  rewrite (inject_no_head (js "chart.js") chartTag doc Hh).
  rewrite (inject_no_head (js "tailwindcss") tailwindTag doc Hh).
  apply inject_no_head. exact Hh.
Qed.

Lemma autoHeal_complete (doc : jsstring) :
  includes doc (js "<!DOCTYPE html>") = true ->
  includes doc (js "chart.js") = true ->
  includes doc (js "tailwindcss") = true ->
  includes doc (js "leaflet") = true ->
  autoHeal doc = doc.
Proof.
  intros Hd Hc Ht Hl. unfold autoHeal. rewrite Hd. cbn [negb].
  rewrite (inject_fix _ _ _ Hc), (inject_fix _ _ _ Ht).
  apply inject_fix. exact Hl.
Qed.

End Rendering.

(** X5. The threat level of an impact section: the label, the colour and the
    width of the bar always belong together; "critical" anywhere in the
    content wins over "high", which wins over "medium"; without any of the
    three the level is Low; and the letter case of the content plays no
    part. *)
Theorem X5_impact_risk_levels (content : jsstring) :
  let critical := AnalysisDisplay.matchesIgnoreCase content (js "Critical") in
  let high := AnalysisDisplay.matchesIgnoreCase content (js "High") in
  let medium := AnalysisDisplay.matchesIgnoreCase content (js "Medium") in
  AnalysisDisplay.impactRisk content =
  (if critical then
     AnalysisDisplay.mkRisk (js "from-gs-alert to-red-600") (js "Critical")
       (js "100%")
   else if high then
     AnalysisDisplay.mkRisk (js "from-orange-500 to-red-500") (js "High")
       (js "75%")
   else if medium then
     AnalysisDisplay.mkRisk (js "from-gs-life to-orange-400") (js "Medium")
       (js "50%")
   else
     AnalysisDisplay.mkRisk (js "from-gs-ocean to-cyan-500") (js "Low")
       (js "25%")) /\
  (forall before after : jsstring,
      AnalysisDisplay.riskLabel
        (AnalysisDisplay.impactRisk (before ++ js "CRITICAL" ++ after)) =
      js "Critical") /\
  (forall other : jsstring,
      map toLowerAscii other = map toLowerAscii content ->
      AnalysisDisplay.impactRisk other = AnalysisDisplay.impactRisk content).
Proof.
  intros critical high medium. split; [|split].
  - unfold AnalysisDisplay.impactRisk. fold critical high medium.
    destruct critical, high, medium; reflexivity.
  - intros before after. unfold AnalysisDisplay.impactRisk.
    replace (AnalysisDisplay.matchesIgnoreCase
               (before ++ js "CRITICAL" ++ after) (js "Critical")) with true;
      [reflexivity|].
    symmetry. unfold AnalysisDisplay.matchesIgnoreCase.
    rewrite !map_app. apply includes_intro.
  - intros other H. unfold AnalysisDisplay.impactRisk,
      AnalysisDisplay.matchesIgnoreCase. rewrite H. reflexivity.
Qed.

Lemma X5_impact_risk_witness :
  AnalysisDisplay.impactRisk (js "RISK: HIGH, not low") =
  AnalysisDisplay.impactRisk (js "risk: high, not low").
Proof.
  apply (X5_impact_risk_levels (js "risk: high, not low")). reflexivity.
Defined.



(** X7. A renderable snippet without a doctype is wrapped: the repaired
    document is the fixed head, the snippet unchanged, and the fixed tail; it
    has the doctype and refers to the three libraries. *)
Theorem X7_snippet_is_wrapped (snippet : jsstring) :
  includes snippet (js "<!DOCTYPE html>") = false ->
  let doc := AnalysisDisplay.autoHeal snippet in
  doc = AnalysisDisplay.documentHead ++ snippet ++ AnalysisDisplay.documentTail /\
  includes doc snippet = true /\
  includes doc (js "<!DOCTYPE html>") = true /\
  includes doc (js "chart.js") = true /\
  includes doc (js "tailwindcss") = true /\
  includes doc (js "leaflet") = true.
Proof.
  intros H doc. subst doc.
  destruct (autoHeal_wrap snippet H) as (E & Hd & Hc & Ht & Hl).
  repeat split; try assumption.
  rewrite E. apply includes_intro.
Qed.

Lemma X7_snippet_is_wrapped_witness :
  includes (AnalysisDisplay.autoHeal (js "<canvas id='c'></canvas>"))
    (js "<canvas id='c'></canvas>") = true.
Proof.
  apply (X7_snippet_is_wrapped (js "<canvas id='c'></canvas>")). reflexivity.
Defined.

(** X8. A document that has its doctype and a [<head>] tag leaves the repair
    referring to the three libraries, whichever of them it lacked, and still
    has its doctype; a document with a doctype but no [<head>] tag (the tag is
    looked for as written, in lower case and without attributes) is left as
    it is. *)
Theorem X8_libraries_are_injected (doc : jsstring) :
  includes doc (js "<!DOCTYPE html>") = true ->
  (includes doc (js "<head>") = true ->
   includes (AnalysisDisplay.autoHeal doc) (js "<!DOCTYPE html>") = true /\
   includes (AnalysisDisplay.autoHeal doc) (js "chart.js") = true /\
   includes (AnalysisDisplay.autoHeal doc) (js "tailwindcss") = true /\
   includes (AnalysisDisplay.autoHeal doc) (js "leaflet") = true) /\
  (includes doc (js "<head>") = false -> AnalysisDisplay.autoHeal doc = doc).
Proof.
  intros Hd. split; intros Hh;
    [apply autoHeal_document | apply autoHeal_no_head]; assumption.
Qed.

Lemma X8_libraries_are_injected_witness :
  includes
    (AnalysisDisplay.autoHeal (js "<!DOCTYPE html><html><head></head></html>"))
    (js "leaflet") = true /\
  AnalysisDisplay.autoHeal (js "<!DOCTYPE html><HEAD></HEAD>") =
  js "<!DOCTYPE html><HEAD></HEAD>".
Proof.
  split.
  - apply (proj1 (X8_libraries_are_injected
                    (js "<!DOCTYPE html><html><head></head></html>") eq_refl)).
    reflexivity.
  - apply (proj2 (X8_libraries_are_injected
                    (js "<!DOCTYPE html><HEAD></HEAD>") eq_refl)).
    reflexivity.
Defined.

(** X9. Repairing is idempotent: a repaired document is left unchanged by a
    second repair. *)
Theorem X9_repair_is_idempotent (code : jsstring) :
  AnalysisDisplay.autoHeal (AnalysisDisplay.autoHeal code) =
  AnalysisDisplay.autoHeal code.
Proof.
  destruct (includes code (js "<!DOCTYPE html>")) eqn:Hd.
  - destruct (includes code (js "<head>")) eqn:Hh.
    + destruct (autoHeal_document code Hd Hh) as (D & C & T & L).
      apply autoHeal_complete; assumption.
    + rewrite (autoHeal_no_head code Hd Hh). apply autoHeal_no_head; assumption.
  - destruct (autoHeal_wrap code Hd) as (_ & D & C & T & L).
    apply autoHeal_complete; assumption.
Qed.

(* ===================================================================== *)
(** ** The analysis, from the first request to the final state *)
(* ===================================================================== *)

Section Analysis.
Import App.

Variable API_KEY : option jsstring.
Variable api : Provider.Api.

Lemma appendText_delta (fullText : jsstring) (chunk : Provider.Chunk) :
  appendText fullText chunk = fullText ++ delta chunk.
Proof.
  unfold appendText, delta. destruct (Provider.text chunk) as [t|].
  - destruct t; [symmetry; apply app_nil_r | reflexivity].
  - symmetry. apply app_nil_r.
Qed.

Lemma fold_appendText (chunks : list Provider.Chunk) :
  forall fullText,
    fold_left appendText chunks fullText = fullText ++ streamedText chunks.
Proof.
  unfold streamedText.
  induction chunks as [|c chunks IH]; intros fullText; cbn [fold_left map concat].
  - symmetry. apply app_nil_r.
  - rewrite IH, appendText_delta, <- app_assoc. reflexivity.
Qed.

(** The analysis loop writes [result] and [isLoading] and nothing else; at
    its end [result] holds the whole text and the whole grounding. *)
Lemma analyzeLoop_world (chunks : list Provider.Chunk) :
  forall (fullText : jsstring) (acc : GroundingMetadata) (w : World),
  exists loading,
    exec (analyzeLoop analysisUpdate chunks fullText acc) w =
    mkWorld loading
      (match chunks with
       | [] => result w
       | _ :: _ =>
           Some (AnalysisResult.mk (fullText ++ streamedText chunks)
                   (Some (fold_left accumulate chunks acc)))
       end)
      (error w) (isStreaming w) (isVisualAnalysis w) (chatHistory w)
      (initialContextParts w) (ticks w).
Proof.
  induction chunks as [|c chunks IH]; intros fullText acc w.
  - exists (isLoading w). destruct w. reflexivity.
  - cbn [analyzeLoop]. rewrite exec_bind.
    set (w1 := exec (analysisUpdate (appendText fullText c)
                       (Some (accumulate acc c))) w).
    destruct (IH (appendText fullText c) (accumulate acc c) w1)
      as [loading E].
    exists loading. rewrite E.
    assert (F : result w1 =
                Some (AnalysisResult.mk (appendText fullText c)
                        (Some (accumulate acc c))) /\
                error w1 = error w /\ isStreaming w1 = isStreaming w /\
                isVisualAnalysis w1 = isVisualAnalysis w /\
                chatHistory w1 = chatHistory w /\
                initialContextParts w1 = initialContextParts w /\
                ticks w1 = ticks w).
    { subst w1. unfold analysisUpdate, exec, bind, setResult, modify.
      cbn [fst snd].
      destruct (Nat.ltb 5 (length (appendText fullText c)));
        cbn; repeat split; reflexivity. }
    destruct F as (F1 & F2 & F3 & F4 & F5 & F6 & F7).
    rewrite F1, F2, F3, F4, F5, F6, F7.
    destruct chunks as [|c' chunks'].
    + unfold streamedText. cbn [map concat fold_left].
      rewrite app_nil_r, appendText_delta. reflexivity.
    + cbn [fold_left]. do 3 f_equal.
      unfold streamedText. cbn [map concat].
      rewrite appendText_delta, <- app_assoc. reflexivity.
Qed.

Lemma analyzeContentStream_eval {S} (text : jsstring)
    (bi mi ba ma : option jsstring) (onUpdate : StreamUpdateCallback S) (s : S) :
  eval (analyzeContentStream API_KEY api text bi mi ba ma onUpdate) s =
  if present API_KEY then
    match Provider.failure
            (api [mkContent user (analysisParts text bi mi ba ma)]) with
    | Some error => Rejected (extractErrorMessage error)
    | None => Resolved
    end
  else Rejected (js "API Key is missing. Please check your environment variables.").
Proof.
  unfold analyzeContentStream. destruct (present API_KEY); cbn [negb];
    [|reflexivity].
  rewrite eval_bind. destruct (Provider.failure _); reflexivity.
Qed.

Lemma analyzeContentStream_exec {S} (text : jsstring)
    (bi mi ba ma : option jsstring) (onUpdate : StreamUpdateCallback S) (s : S) :
  exec (analyzeContentStream API_KEY api text bi mi ba ma onUpdate) s =
  if present API_KEY then
    exec (analyzeLoop onUpdate
            (Provider.chunks
               (api [mkContent user (analysisParts text bi mi ba ma)]))
            [] (mkGrounding [] None)) s
  else s.
Proof.
  unfold analyzeContentStream. destruct (present API_KEY); cbn [negb];
    [|reflexivity].
  rewrite exec_bind. destruct (Provider.failure _); reflexivity.
Qed.

(** The state in which [handleAnalyze] leaves the component. *)
Lemma handleAnalyze_final (text : jsstring) (fileData : option FileData)
    (audioData : option AudioData) (w : World) :
  let stream := api (analysisRequest text fileData audioData) in
  let chunks := Provider.chunks stream in
  exec (handleAnalyze API_KEY api text fileData audioData) w =
  mkWorld false
    (Some (if present API_KEY then
             match chunks with
             | [] => AnalysisResult.mk [] None
             | _ :: _ =>
                 AnalysisResult.mk (streamedText chunks)
                   (Some (streamedGrounding chunks))
             end
           else AnalysisResult.mk [] None))
    (if present API_KEY then
       match Provider.failure stream with
       | Some error => Some (shownError (extractErrorMessage error))
       | None => None
       end
     else
       Some (js "API Key is missing. Please check your environment variables."))
    false
    (match fileData with Some _ => true | None => false end)
    [] (contextParts text fileData audioData) (ticks w).
Proof.
  intros stream chunks. destruct w as [il res err st vis hist parts tk].
  unfold exec, handleAnalyze.
  cbn -[analyzeContentStream js includes analysisUpdate contextParts].
  match goal with |- snd (?m ?w) = _ => change (snd (m w)) with (exec m w) end.
  rewrite exec_bind, analyzeContentStream_eval, analyzeContentStream_exec.
  fold (analysisRequest text fileData audioData). fold stream. fold chunks.
  destruct (present API_KEY); [|reflexivity].
  match goal with
  | |- context [exec (analyzeLoop analysisUpdate chunks [] ?acc) ?w0] =>
      destruct (analyzeLoop_world chunks [] acc w0) as [loading E];
      rewrite E
  end.
  cbn [result error isStreaming isVisualAnalysis chatHistory
       initialContextParts ticks app].
  fold (streamedGrounding chunks).
  destruct (Provider.failure stream) as [e|]; destruct chunks; reflexivity.
Qed.

Lemma shownError_clean (message : jsstring) :
  includes (shownError message) (js "[object Object]") = false /\
  shownError message <> js "{}".
Proof.
  unfold shownError.
  destruct (includes message (js "[object Object]") || eqb message (js "{}"))
    eqn:E.
  - split; [vm_compute; reflexivity | vm_compute; discriminate].
  - apply orb_false_iff in E. destruct E as [E1 E2]. split; [exact E1|].
    intros ->. rewrite eqb_refl in E2. discriminate.
Qed.

End Analysis.

(** X10. However an analysis ends (no key, a stream that ends, a stream
    that fails), it leaves the component not loading and not streaming, with
    an empty chat, with the context captured from the input, and with a
    result that is not null. *)
Theorem X10_analysis_always_settles (API_KEY : option jsstring)
    (api : Provider.Api) (text : jsstring) (fileData : option FileData)
    (audioData : option AudioData) (w : App.World) :
  let w' := exec (App.handleAnalyze API_KEY api text fileData audioData) w in
  App.isLoading w' = false /\ App.isStreaming w' = false /\
  App.chatHistory w' = [] /\
  App.initialContextParts w' = App.contextParts text fileData audioData /\
  App.isVisualAnalysis w' =
    (match fileData with Some _ => true | None => false end) /\
  App.result w' <> None.
Proof.
  intros w'. subst w'. rewrite handleAnalyze_final. cbn.
  repeat split. discriminate.
Qed.

(** X11. When the stream ends normally, no error is shown and the result
    holds all the text deltas, concatenated in order, with the grounding
    accumulated over all chunks (none if the stream had no chunk). *)
Theorem X11_analysis_result_is_whole_stream (API_KEY : option jsstring)
    (api : Provider.Api) (text : jsstring) (fileData : option FileData)
    (audioData : option AudioData) (w : App.World) :
  present API_KEY = true ->
  Provider.failure (api (analysisRequest text fileData audioData)) = None ->
  let chunks := Provider.chunks (api (analysisRequest text fileData audioData)) in
  let w' := exec (App.handleAnalyze API_KEY api text fileData audioData) w in
  App.error w' = None /\
  App.result w' =
  Some (AnalysisResult.mk (streamedText chunks)
          (match chunks with
           | [] => None
           | _ :: _ => Some (streamedGrounding chunks)
           end)).
Proof.
  intros Hkey Hok chunks w'. subst w'. rewrite handleAnalyze_final.
  cbn [App.error App.result]. rewrite Hkey, Hok. fold chunks.
  split; [reflexivity|]. destruct chunks; reflexivity.
Qed.

Lemma X11_analysis_result_witness :
  App.result
    (exec (App.handleAnalyze exampleKey exampleApi (js "check this river")
             None None) exampleWorld) =
  Some (AnalysisResult.mk (js "## Sources follow")
          (Some (mkGrounding
                   [ mkGroundingChunk (Some (WebSource.mk (js "a") (js "first")));
                     mkGroundingChunk (Some (WebSource.mk (js "b") (js "second")));
                     mkGroundingChunk (Some (WebSource.mk (js "a") (js "third"))) ]
                   None))).
Proof.
  apply (X11_analysis_result_is_whole_stream exampleKey exampleApi
           (js "check this river") None None exampleWorld eq_refl eq_refl).
Defined.

(** X12. The error an analysis shows never contains "[object Object]" and
    is never "{}".  Without an API key it is the configuration message and
    the provider is not asked; when the stream fails after some chunks, the
    text received before the failure stays in the result. *)
Theorem X12_analysis_errors (API_KEY : option jsstring)
    (api : Provider.Api) (text : jsstring) (fileData : option FileData)
    (audioData : option AudioData) (w : App.World) :
  let stream := api (analysisRequest text fileData audioData) in
  let w' := exec (App.handleAnalyze API_KEY api text fileData audioData) w in
  (forall m, App.error w' = Some m ->
             includes m (js "[object Object]") = false /\ m <> js "{}") /\
  (present API_KEY = false ->
   App.error w' =
     Some (js "API Key is missing. Please check your environment variables.") /\
   App.result w' = Some (AnalysisResult.mk [] None)) /\
  (forall e, present API_KEY = true -> Provider.failure stream = Some e ->
             App.error w' = Some (shownError (extractErrorMessage e)) /\
             exists r, App.result w' = Some r /\
                       AnalysisResult.text r =
                       streamedText (Provider.chunks stream)).
Proof.
  intros stream w'. subst w'. rewrite handleAnalyze_final.
  cbn [App.error App.result]. fold stream. split; [|split].
  - intros m. destruct (present API_KEY).
    + destruct (Provider.failure stream); [|discriminate].
      intros H. inversion H; subst. apply shownError_clean.
    + intros H. inversion H; subst.
      split; [vm_compute; reflexivity | vm_compute; discriminate].
  - intros ->. split; reflexivity.
  - intros e -> ->. split; [reflexivity|].
    eexists. split; [reflexivity|].
    destruct (Provider.chunks stream); reflexivity.
Qed.

Lemma X12_analysis_errors_witness :
  App.error
    (exec (App.handleAnalyze None exampleApi (js "check this river") None None)
       exampleWorld) =
  Some (js "API Key is missing. Please check your environment variables.").
Proof.
  apply (X12_analysis_errors None exampleApi (js "check this river") None None
           exampleWorld).
  reflexivity.
Defined.

(* ===================================================================== *)
(** ** More on the follow-up exchange *)
(* ===================================================================== *)

Section FollowUpDetails.
Import App.

Variable time : nat -> Z.
Variable API_KEY : option jsstring.
Variable api : Provider.Api.

Lemma continueConversationStream_eval {S} (history : list ChatMessage.t)
    (newMessage : jsstring) (parts : list Part)
    (onUpdate : StreamUpdateCallback S) (s : S) :
  eval (continueConversationStream API_KEY api history newMessage parts
          onUpdate) s =
  if present API_KEY then
    match Provider.failure (api (continuationContents history newMessage parts))
    with
    | Some error => Rejected (extractErrorMessage error)
    | None => Resolved
    end
  else Rejected (js "API Key missing").
Proof.
  unfold continueConversationStream. destruct (present API_KEY); cbn [negb];
    [|reflexivity].
  rewrite eval_bind. destruct (Provider.failure _); reflexivity.
Qed.

Lemma continueConversationStream_exec {S} (history : list ChatMessage.t)
    (newMessage : jsstring) (parts : list Part)
    (onUpdate : StreamUpdateCallback S) (s : S) :
  exec (continueConversationStream API_KEY api history newMessage parts
          onUpdate) s =
  if present API_KEY then
    exec (continueLoop onUpdate
            (Provider.chunks
               (api (continuationContents history newMessage parts))) []) s
  else s.
Proof.
  unfold continueConversationStream. destruct (present API_KEY); cbn [negb];
    [|reflexivity].
  rewrite exec_bind. destruct (Provider.failure _); reflexivity.
Qed.

(** The continuation loop writes the last entry of the history, advances
    the clock, and touches nothing else. *)
Lemma continueLoop_world (chunks : list Provider.Chunk) :
  forall (fullText : jsstring) (w : World),
    chatHistory w <> [] ->
    exists ts,
      exec (continueLoop (chatUpdate time) chunks fullText) w =
      mkWorld (isLoading w) (result w) (error w) (isStreaming w)
        (isVisualAnalysis w)
        (match chunks with
         | [] => chatHistory w
         | _ :: _ =>
             removelast (chatHistory w) ++
             [ChatMessage.mk model (fullText ++ streamedText chunks) ts]
         end)
        (initialContextParts w) (ticks w + length chunks).
Proof.
  induction chunks as [|c chunks IH]; intros fullText w Hne.
  - exists 0%Z. destruct w. cbn. rewrite Nat.add_0_r. reflexivity.
  - cbn [continueLoop]. rewrite exec_bind.
    set (x := ChatMessage.mk model (appendText fullText c) (time (ticks w))).
    assert (E1 : exec (chatUpdate time (appendText fullText c) None) w =
                 mkWorld (isLoading w) (result w) (error w) (isStreaming w)
                   (isVisualAnalysis w) (removelast (chatHistory w) ++ [x])
                   (initialContextParts w) (S (ticks w))).
    { destruct w as [il res err st vis hist parts tk]. cbn in Hne |- *.
      destruct hist; [congruence | reflexivity]. }
    rewrite E1.
    match goal with |- context [exec _ ?w1] =>
      destruct (IH (appendText fullText c) w1) as [ts E2]
    end.
    { cbn [chatHistory]. destruct (removelast (chatHistory w)); discriminate. }
    rewrite E2. cbn [isLoading result error isStreaming isVisualAnalysis
                     chatHistory initialContextParts ticks length].
    destruct chunks as [|c' chunks'].
    + exists (time (ticks w)). f_equal; [|lia].
      unfold streamedText. cbn [map concat].
      rewrite app_nil_r, <- appendText_delta. reflexivity.
    + exists ts. f_equal; [|cbn [length]; lia].
      rewrite removelast_last. unfold streamedText. cbn [map concat].
      rewrite appendText_delta, <- app_assoc. reflexivity.
Qed.

(** The history in which [handleSendMessage] leaves the component. *)
Lemma handleSendMessage_final (message : jsstring) (w : World)
    (analysis : AnalysisResult.t) :
  result w = Some analysis ->
  let prior := priorTurns time w analysis in
  let stream :=
    api (continuationContents prior message (initialContextParts w)) in
  exists ts,
    chatHistory (exec (handleSendMessage time API_KEY api message) w) =
    prior ++
    [ChatMessage.mk user message (time (ticks w));
     ChatMessage.mk model (replyText API_KEY stream) ts].
Proof.
  destruct w as [il res err st vis hist parts tk].
  unfold priorTurns. cbv zeta.
  cbn [result chatHistory ticks initialContextParts]. intros ->.
  set (prior := match hist with
                | [] => [ChatMessage.mk model (AnalysisResult.text analysis)
                           (time (S tk))]
                | _ :: _ => hist
                end).
  set (stream := api (continuationContents prior message parts)).
  set (userMsg := ChatMessage.mk user message (time tk)).
  assert (E : exists w3,
             chatHistory w3 <> [] /\
             removelast (chatHistory w3) = prior ++ [userMsg] /\
             (exists p, chatHistory w3 =
                        prior ++ [userMsg; ChatMessage.mk model (js "Thinking...") p]) /\
             exec (handleSendMessage time API_KEY api message)
               (mkWorld il (Some analysis) err st vis hist parts tk) =
             exec (outcome <- continueConversationStream API_KEY api prior
                                message parts (chatUpdate time) ;;
                   match outcome with
                   | Resolved => ret tt
                   | Rejected message =>
                       let msg :=
                         if includes message (js "[object Object]")
                         then js "Connection interrupted (Unknown Error)."
                         else message in
                       now <- dateNow time ;;
                       setChatHistory (fun prev =>
                         setLast prev
                           (ChatMessage.mk model (js "Error: " ++ msg) now))
                   end)%js w3).
  { destruct hist as [|h0 hs]; subst prior.
    - exists (mkWorld il (Some analysis) err st vis
                [ChatMessage.mk model (AnalysisResult.text analysis) (time (S tk));
                 userMsg;
                 ChatMessage.mk model (js "Thinking...") (time (S (S tk)))]
                parts (S (S (S tk)))).
      split; [discriminate|]. split; [reflexivity|].
      split; [eexists; reflexivity|].
      unfold exec, handleSendMessage.
      cbn -[continueConversationStream js includes chatUpdate]. reflexivity.
    - exists (mkWorld il (Some analysis) err st vis
                (((h0 :: hs) ++ [userMsg]) ++
                 [ChatMessage.mk model (js "Thinking...") (time (S tk))])
                parts (S (S tk))).
      split; [cbn; destruct (hs ++ [userMsg]); discriminate|].
      split; [apply removelast_last|].
      split; [eexists; cbn [chatHistory]; rewrite <- app_assoc; reflexivity|].
      unfold exec, handleSendMessage.
      cbn -[continueConversationStream js includes chatUpdate]. reflexivity. }
  destruct E as (w3 & Hne & Hrm & [p Hh] & ->).
  rewrite exec_bind, continueConversationStream_eval,
    continueConversationStream_exec.
  fold stream. unfold replyText, replyError.
  destruct (present API_KEY); cbn [negb].
  - destruct (continueLoop_world (Provider.chunks stream) [] w3 Hne) as [ts E].
    rewrite E. rewrite Hrm.
    destruct (Provider.failure stream) as [e|].
    + destruct (Provider.chunks stream);
        eexists; cbn -[js includes extractErrorMessage streamedText].
      * rewrite Hh. cbn -[js includes extractErrorMessage].
        replace (prior ++ [userMsg; ChatMessage.mk model (js "Thinking...") p])
          with ((prior ++ [userMsg]) ++ [ChatMessage.mk model (js "Thinking...") p])
          by (rewrite <- app_assoc; reflexivity).
        unfold setLast. destruct ((prior ++ [userMsg]) ++ _) eqn:D.
        -- destruct prior; discriminate D.
        -- rewrite <- D, removelast_last, <- app_assoc. reflexivity.
      * unfold setLast.
        destruct ((prior ++ [userMsg]) ++ _) eqn:D.
        -- destruct prior; discriminate D.
        -- rewrite <- D, removelast_last, <- app_assoc. reflexivity.
    + rewrite exec_ret. cbn [chatHistory].
      destruct (Provider.chunks stream).
      * exists p. exact Hh.
      * exists ts. rewrite <- app_assoc. reflexivity.
  - eexists. cbn -[js includes]. rewrite Hh.
    replace (prior ++ [userMsg; ChatMessage.mk model (js "Thinking...") p])
      with ((prior ++ [userMsg]) ++ [ChatMessage.mk model (js "Thinking...") p])
      by (rewrite <- app_assoc; reflexivity).
    unfold setLast. destruct ((prior ++ [userMsg]) ++ _) eqn:D.
    + destruct prior; discriminate D.
    + rewrite <- D, removelast_last, <- app_assoc. reflexivity.
Qed.

End FollowUpDetails.

Lemma replyError_clean (m : jsstring) :
  includes (if includes m (js "[object Object]")
            then js "Connection interrupted (Unknown Error)."
            else m) (js "[object Object]") = false.
Proof.
  destruct (includes m (js "[object Object]")) eqn:E;
    [vm_compute; reflexivity | exact E].
Qed.

Lemma record_texts_agree (chunks : list Provider.Chunk) :
  forall (fullText : jsstring) (acc : GroundingMetadata) (l1 l2 : list Update),
    map fst l1 = map fst l2 ->
    map fst (exec (continueLoop record chunks fullText) l1) =
    map fst (exec (analyzeLoop record chunks fullText acc) l2).
Proof.
  induction chunks as [|c chunks IH]; intros fullText acc l1 l2 H; [exact H|].
  cbn [continueLoop analyzeLoop]. rewrite !exec_bind. apply IH.
  unfold record, exec, modify. cbn [snd].
  rewrite !map_app, H. reflexivity.
Qed.

(** X13. Without a result a follow-up does nothing at all; [reset] clears
    the result, the error, the chat and the captured context, so a follow-up
    sent after a reset does nothing. *)
Theorem X13_no_result_no_follow_up (time : nat -> Z)
    (API_KEY : option jsstring) (api : Provider.Api) (message : jsstring)
    (w : App.World) :
  (App.result w = None ->
   App.handleSendMessage time API_KEY api message w = (tt, w)) /\
  let cleared := exec App.reset w in
  App.result cleared = None /\ App.error cleared = None /\
  App.chatHistory cleared = [] /\ App.initialContextParts cleared = [] /\
  App.isStreaming cleared = false /\
  exec (App.handleSendMessage time API_KEY api message) cleared = cleared.
Proof.
  split.
  - intros H. unfold App.handleSendMessage, bind, getState. rewrite H.
    reflexivity.
  - destruct w. cbn. repeat split.
Qed.

Lemma X13_no_result_witness :
  App.handleSendMessage Z.of_nat exampleKey exampleApi (js "hello")
    (exec App.reset exampleWorld) = (tt, exec App.reset exampleWorld).
Proof.
  apply (X13_no_result_no_follow_up Z.of_nat exampleKey exampleApi (js "hello")
           (exec App.reset exampleWorld)).
  reflexivity.
Defined.

(** X14. A follow-up on a chat that already has entries appends exactly
    two, the user's message and one model reply, and leaves the earlier
    entries as they were, whatever the stream does. *)
Theorem X14_follow_up_appends_two (time : nat -> Z)
    (API_KEY : option jsstring) (api : Provider.Api) (message : jsstring)
    (w : App.World) (analysis : AnalysisResult.t) :
  App.result w = Some analysis -> App.chatHistory w <> [] ->
  exists reply,
    App.chatHistory
      (exec (App.handleSendMessage time API_KEY api message) w) =
    App.chatHistory w ++
    [ChatMessage.mk user message (time (App.ticks w)); reply] /\
    ChatMessage.role reply = model.
Proof.
  intros Hres Hne.
  destruct (handleSendMessage_final time API_KEY api message w analysis Hres)
    as [ts E].
  rewrite E. unfold priorTurns.
  destruct (App.chatHistory w); [congruence|].
  eexists. split; reflexivity.
Qed.

Lemma X14_follow_up_appends_two_witness :
  exists reply,
    App.chatHistory
      (exec (App.handleSendMessage Z.of_nat None exampleApi (js "again"))
         (exec (App.handleSendMessage Z.of_nat exampleKey exampleApi
                  (js "hello")) exampleWorld)) =
    App.chatHistory
      (exec (App.handleSendMessage Z.of_nat exampleKey exampleApi (js "hello"))
         exampleWorld) ++
    [ChatMessage.mk user (js "again") 6%Z; reply] /\
    ChatMessage.role reply = model.
Proof.
  apply (X14_follow_up_appends_two Z.of_nat None exampleApi (js "again")
           (exec (App.handleSendMessage Z.of_nat exampleKey exampleApi
                    (js "hello")) exampleWorld)
           (AnalysisResult.mk (js "report") None)).
  - reflexivity.
  - vm_compute. discriminate.
Defined.

(** X15. A follow-up asks the provider one thing only: the request whose
    turns are the captured context, the history as it was before the user's
    message (on the first follow-up, the analysis text as a model turn), and
    the user's message.  Two providers that answer this request alike leave
    the component in the same state. *)
Theorem X15_follow_up_request (time : nat -> Z) (API_KEY : option jsstring)
    (api api' : Provider.Api) (message : jsstring) (w : App.World)
    (analysis : AnalysisResult.t) :
  App.result w = Some analysis ->
  let contents :=
    continuationContents (priorTurns time w analysis) message
      (App.initialContextParts w) in
  api contents = api' contents ->
  exec (App.handleSendMessage time API_KEY api message) w =
  exec (App.handleSendMessage time API_KEY api' message) w.
Proof.
  destruct w as [il res err st vis hist parts tk]. unfold priorTurns.
  cbn [App.result App.chatHistory App.ticks App.initialContextParts].
  cbv zeta. intros -> H.
  destruct hist as [|h0 hs]; unfold exec, App.handleSendMessage;
    cbn -[continueConversationStream js includes App.chatUpdate];
    unfold continueConversationStream; rewrite H; reflexivity.
Qed.

Lemma X15_follow_up_request_witness :
  exec (App.handleSendMessage Z.of_nat exampleKey exampleApi (js "hello"))
    exampleWorld =
  exec (App.handleSendMessage Z.of_nat exampleKey (truncated 3 exampleApi)
          (js "hello")) exampleWorld.
Proof.
  apply (X15_follow_up_request Z.of_nat exampleKey exampleApi
           (truncated 3 exampleApi) (js "hello") exampleWorld
           (AnalysisResult.mk (js "report") None)); reflexivity.
Defined.

(** X16. The reply entry at the end of a follow-up: all the text deltas of
    the stream, concatenated, when it ends normally with at least one chunk;
    still the placeholder "Thinking..." when the stream ends without any
    chunk; "Error: API Key missing" without a key; and "Error: " followed by
    a message free of "[object Object]" when the stream fails. *)
Theorem X16_reply_text (time : nat -> Z) (API_KEY : option jsstring)
    (api : Provider.Api) (message : jsstring) (w : App.World)
    (analysis : AnalysisResult.t) :
  App.result w = Some analysis ->
  let stream :=
    api (continuationContents (priorTurns time w analysis) message
           (App.initialContextParts w)) in
  let reply :=
    last (App.chatHistory
            (exec (App.handleSendMessage time API_KEY api message) w))
      (ChatMessage.mk user [] 0%Z) in
  ChatMessage.role reply = model /\
  (present API_KEY = false ->
   ChatMessage.text reply = js "Error: API Key missing") /\
  (present API_KEY = true -> Provider.failure stream = None ->
   Provider.chunks stream = [] ->
   ChatMessage.text reply = js "Thinking...") /\
  (present API_KEY = true -> Provider.failure stream = None ->
   Provider.chunks stream <> [] ->
   ChatMessage.text reply = streamedText (Provider.chunks stream)) /\
  (forall e, present API_KEY = true -> Provider.failure stream = Some e ->
             exists m, ChatMessage.text reply = js "Error: " ++ m /\
                       includes m (js "[object Object]") = false).
Proof.
  intros Hres stream reply.
  destruct (handleSendMessage_final time API_KEY api message w analysis Hres)
    as [ts E].
  fold stream in E. subst reply. rewrite E.
  replace (priorTurns time w analysis ++
           [ChatMessage.mk user message (time (App.ticks w));
            ChatMessage.mk model (replyText API_KEY stream) ts])
    with ((priorTurns time w analysis ++
           [ChatMessage.mk user message (time (App.ticks w))]) ++
          [ChatMessage.mk model (replyText API_KEY stream) ts])
    by (rewrite <- app_assoc; reflexivity).
  rewrite last_last. cbn [ChatMessage.role ChatMessage.text].
  unfold replyText, replyError.
  split; [reflexivity|]. split; [|split; [|split]].
  - intros ->. reflexivity.
  - intros -> -> ->. reflexivity.
  - intros -> -> H. destruct (Provider.chunks stream); [congruence|reflexivity].
  - intros e -> ->. cbn [negb]. eexists. split; [reflexivity|].
    apply replyError_clean.
Qed.

Lemma X16_reply_text_witness :
  ChatMessage.text
    (last (App.chatHistory
             (exec (App.handleSendMessage Z.of_nat exampleKey exampleApi
                      (js "hello")) exampleWorld))
       (ChatMessage.mk user [] 0%Z)) = js "## Sources follow" /\
  ChatMessage.text
    (last (App.chatHistory
             (exec (App.handleSendMessage Z.of_nat None exampleApi
                      (js "hello")) exampleWorld))
       (ChatMessage.mk user [] 0%Z)) = js "Error: API Key missing".
Proof.
  split.
  - apply (X16_reply_text Z.of_nat exampleKey exampleApi (js "hello")
             exampleWorld (AnalysisResult.mk (js "report") None) eq_refl);
      [reflexivity | reflexivity | discriminate].
  - apply (X16_reply_text Z.of_nat None exampleApi (js "hello")
             exampleWorld (AnalysisResult.mk (js "report") None) eq_refl).
    reflexivity.
Defined.

(** X17. Given the same chunks, the continuation loop and the analysis loop
    hand the same sequence of texts to their callback: the two entry points
    differ only in the grounding they pass along. *)
Theorem X17_both_loops_deliver_the_same_text (chunks : list Provider.Chunk)
    (fullText : jsstring) (acc : GroundingMetadata) :
  map fst (exec (continueLoop record chunks fullText) []) =
  map fst (exec (analyzeLoop record chunks fullText acc) []).
Proof. apply record_texts_agree. reflexivity. Qed.

(* ===================================================================== *)
(** ** Error messages, the form, and the list of sources *)
(* ===================================================================== *)

Section Sources2.
Import AnalysisDisplay.

Lemma collect_keys_mono (sources : list WebSource.t) :
  forall m k, In k (map fst m) -> In k (map fst (collect sources m)).
Proof.
  induction sources as [|s sources IH]; intros m k H; cbn; [exact H|].
  apply IH. apply mapSet_keys. right. exact H.
Qed.

Lemma collect_has (sources : list WebSource.t) :
  forall m s, In s sources -> In (WebSource.uri s) (map fst (collect sources m)).
Proof.
  induction sources as [|s0 sources IH]; intros m s H; [destruct H|].
  destruct H as [H | H]; cbn.
  - subst. apply collect_keys_mono. apply mapSet_keys. left. reflexivity.
  - apply IH. exact H.
Qed.

Lemma mapSet_from (m : list (jsstring * WebSource.t)) k0 v0 e :
  In e (mapSet m k0 v0) -> In e m \/ snd e = v0.
Proof.
  induction m as [|[k v] m IH]; cbn [mapSet].
  - intros [<- | []]. right. reflexivity.
  - destruct (eqb k k0); intros [<- | H].
    + right. reflexivity.
    + left. right. exact H.
    + left. left. reflexivity.
    + destruct (IH H) as [H' | H']; [left; right; exact H' | right; exact H'].
Qed.

Lemma collect_from (sources : list WebSource.t) :
  forall m e, In e (collect sources m) -> In e m \/ In (snd e) sources.
Proof.
  induction sources as [|s sources IH]; intros m e H; cbn in H; [left; exact H|].
  destruct (IH _ _ H) as [H' | H']; [|right; right; exact H'].
  destruct (mapSet_from _ _ _ _ H') as [H'' | H''];
    [left; exact H'' | right; left; symmetry; exact H''].
Qed.

Lemma uniqueSources_complete (sources : list WebSource.t) (s : WebSource.t) :
  In s sources -> In (WebSource.uri s) (map WebSource.uri (uniqueSources sources)).
Proof.
  intros H. unfold uniqueSources. fold (collect sources []).
  destruct (collect_invariant sources [] (NoDup_nil _) (Forall_nil _))
    as [_ Hk].
  rewrite (keyed_uris _ Hk). apply collect_has. exact H.
Qed.

Lemma uniqueSources_sound (sources : list WebSource.t) (s : WebSource.t) :
  In s (uniqueSources sources) -> In s sources.
Proof.
  unfold uniqueSources. fold (collect sources []). intros H.
  apply in_map_iff in H. destruct H as (e & <- & He).
  destruct (collect_from _ _ _ He) as [H | H]; [destruct H | exact H].
Qed.

Lemma uniqueSources_empty (sources : list WebSource.t) :
  uniqueSources sources = [] <-> sources = [].
Proof.
  split; [|intros ->; reflexivity].
  intros H. destruct sources as [|s sources]; [reflexivity|].
  pose proof (uniqueSources_complete (s :: sources) s (or_introl eq_refl)) as C.
  rewrite H in C. destruct C.
Qed.

End Sources2.

(** X18. Which message [extractErrorMessage] returns: a non-empty string at
    [response.data.error.message] comes first, then one at [error.message],
    then one at [message]; a thrown string is returned as it is.  This holds
    for messages that do not contain "[object Object]" and are not "{}"; a
    result that contains "[object Object]" can only be "API Error: " followed
    by the status text. *)
Theorem X18_message_priority (error : JsValue.t) (s : jsstring) :
  nonEmpty s = true ->
  includes s (js "[object Object]") || eqb s (js "{}") = false ->
  let nested :=
    get (get (get (get error (js "response")) (js "data")) (js "error"))
      (js "message") in
  let inner := get (get error (js "error")) (js "message") in
  let own := get error (js "message") in
  (nested = JString s -> extractErrorMessage error = s) /\
  (genuineString nested = false -> inner = JString s ->
   extractErrorMessage error = s) /\
  (genuineString nested = false -> genuineString inner = false ->
   own = JString s -> extractErrorMessage error = s) /\
  extractErrorMessage (JString s) = s /\
  (forall other : JsValue.t,
      includes (extractErrorMessage other) (js "[object Object]") = true ->
      exists status, extractErrorMessage other = js "API Error: " ++ status).
Proof.
  intros Hne Hok nested inner own.
  assert (G : genuineString (JString s) = true)
    by (unfold genuineString; cbn; rewrite Hne; reflexivity).
  split; [|split; [|split; [|split]]].
  - intros H. unfold extractErrorMessage. fold nested. rewrite H, G.
    cbn [toString]. rewrite Hok. reflexivity.
  - intros H1 H2. unfold extractErrorMessage. fold nested inner.
    rewrite H1, H2, G. cbn [toString]. rewrite Hok. reflexivity.
  - intros H1 H2 H3. unfold extractErrorMessage. fold nested inner own.
    rewrite H1, H2, H3, G. cbn [toString]. rewrite Hok. reflexivity.
  - unfold extractErrorMessage. cbn [get genuineString truthy isString andb
                                     instanceofError toString].
    rewrite Hok. reflexivity.
  - intros other. unfold extractErrorMessage.
    match goal with
    | |- context [includes ?m (js "[object Object]") || eqb ?m (js "{}")] =>
        set (msg := m)
    end.
    destruct (includes msg (js "[object Object]") || eqb msg (js "{}")) eqn:E.
    + destruct (genuineString (get other (js "statusText"))).
      * intros _. eexists. reflexivity.
      * intros H. vm_compute in H. discriminate H.
    + apply orb_false_iff in E. destruct E as [E _]. rewrite E. discriminate.
Qed.

Lemma X18_message_priority_witness :
  extractErrorMessage
    (JObject true
       [ (js "message", JString (js "outer"));
         (js "error", JObject false [(js "message", JString (js "quota"))]) ]) =
  js "quota".
Proof.
  apply (X18_message_priority
           (JObject true
              [ (js "message", JString (js "outer"));
                (js "error", JObject false [(js "message", JString (js "quota"))]) ])
           (js "quota")); reflexivity.
Defined.

(** X20. The form submits nothing when there is neither text nor file nor
    recording.  Otherwise it hands the text (behind a location banner when a
    position is known), the file and the recording to the analysis, and the
    context captured from them consists of the given media and the text: the
    fallback prompt of the context is never used for a submitted form. *)
Theorem X20_form_never_submits_nothing {S : Type} (text : jsstring)
    (fileData : option FileData) (audioData : option AudioData)
    (location : option InputSection.Location)
    (onAnalyze : jsstring -> option FileData -> option AudioData -> M S unit)
    (s : S) :
  (nonEmpty text = false -> fileData = None -> audioData = None ->
   InputSection.handleSubmit text fileData audioData location onAnalyze s =
   (tt, s)) /\
  (nonEmpty text = true \/ fileData <> None \/ audioData <> None ->
   let finalText :=
     match location with
     | Some l => InputSection.locatedText l text
     | None => text
     end in
   InputSection.handleSubmit text fileData audioData location onAnalyze s =
   onAnalyze finalText fileData audioData s /\
   exists before, finalText = before ++ text /\
   App.contextParts finalText fileData audioData =
   (match fileData with
    | Some f => [InlineData (App.afterMarker (base64 f)) (mimeType f)]
    | None => []
    end) ++
   (match audioData with
    | Some a => [InlineData (App.afterMarker (base64 a)) (mimeType a)]
    | None => []
    end) ++
   (if nonEmpty finalText then [TextPart finalText] else [])).
Proof.
  split.
  - intros H -> ->. unfold InputSection.handleSubmit. rewrite H. reflexivity.
  - intros H finalText.
    assert (E : nonEmpty finalText = true \/ fileData <> None \/ audioData <> None).
    { destruct H as [H | H]; [left | right; exact H].
      subst finalText. destruct location; [reflexivity | exact H]. }
    split; [|split with (x := match location with
                              | Some l =>
                                  firstn (length (InputSection.locatedText l text)
                                          - length text)
                                    (InputSection.locatedText l text)
                              | None => []
                              end); split].
    + unfold InputSection.handleSubmit.
      destruct (nonEmpty text), fileData, audioData; cbn;
        try reflexivity.
      destruct H as [H | [H | H]]; congruence.
    + subst finalText. destruct location as [l|]; [|reflexivity].
      unfold InputSection.locatedText.
      repeat rewrite app_assoc. rewrite length_app, Nat.add_sub.
      rewrite firstn_app, firstn_all, Nat.sub_diag. cbn [firstn].
      rewrite app_nil_r. reflexivity.
    + unfold App.contextParts.
      destruct fileData, audioData, (nonEmpty finalText); cbn; try reflexivity.
      destruct E as [E | [E | E]]; congruence.
Qed.

Lemma X20_form_witness :
  InputSection.handleSubmit [] None None None
    (fun _ _ _ => modify (fun n : nat => S n)) 0 = (tt, 0) /\
  InputSection.handleSubmit (js "check this river") None None None
    (fun _ _ _ => modify (fun n : nat => S n)) 0 = (tt, 1).
Proof.
  split.
  - apply (X20_form_never_submits_nothing [] None None None
             (fun _ _ _ => modify (fun n : nat => S n)) 0); reflexivity.
  - apply (X20_form_never_submits_nothing (js "check this river") None None None
             (fun _ _ _ => modify (fun n : nat => S n)) 0).
    left. reflexivity.
Defined.

(** X21. The list of sources shows exactly the URIs of the grounding chunks
    that have a web source, and every entry shown is one of the sources
    received; nothing is rendered exactly when there is no metadata or no
    chunk has a web source. *)
Theorem X21_rendered_sources (groundingMetadata : option GroundingMetadata) :
  (AnalysisDisplay.renderGrounding groundingMetadata = None <->
   match groundingMetadata with
   | None => True
   | Some md => AnalysisDisplay.webSources (groundingChunks md) = []
   end) /\
  (forall shown,
      AnalysisDisplay.renderGrounding groundingMetadata = Some shown ->
      exists md,
        groundingMetadata = Some md /\
        (forall s, In s (AnalysisDisplay.webSources (groundingChunks md)) ->
                   In (WebSource.uri s) (map WebSource.uri shown)) /\
        (forall s, In s shown ->
                   In s (AnalysisDisplay.webSources (groundingChunks md)))).
Proof.
  unfold AnalysisDisplay.renderGrounding.
  destruct groundingMetadata as [md|];
    [|split; [split; [trivial | reflexivity] | discriminate]].
  destruct (groundingChunks md) as [|c cs] eqn:C; cbn [length Nat.eqb].
  - split; [split; reflexivity | discriminate].
  - set (sources := AnalysisDisplay.webSources (c :: cs)).
    destruct (AnalysisDisplay.uniqueSources sources) as [|u us] eqn:U;
      cbn [length Nat.eqb].
    + apply (proj1 (uniqueSources_empty sources)) in U.
      split; [split; [intros _; exact U | reflexivity] | discriminate].
    + split.
      * split; [discriminate|]. intros H. rewrite H in U. discriminate U.
      * intros shown H. inversion H; subst shown. exists md.
        split; [reflexivity|]. rewrite C. fold sources. rewrite <- U. split.
        -- apply uniqueSources_complete.
        -- apply uniqueSources_sound.
Qed.

Lemma X21_rendered_sources_witness :
  AnalysisDisplay.renderGrounding
    (Some (mkGrounding [mkGroundingChunk None; mkGroundingChunk None] None)) =
  None.
Proof.
  apply (X21_rendered_sources
           (Some (mkGrounding [mkGroundingChunk None; mkGroundingChunk None]
                    None))).
  reflexivity.
Defined.

Lemma contextParts_nonempty (text : jsstring) (fileData : option FileData)
    (audioData : option AudioData) :
  App.contextParts text fileData audioData <> [].
Proof.
  unfold App.contextParts.
  destruct fileData, audioData, (nonEmpty text); cbn; discriminate.
Qed.

(** X19. When something is supplied and every medium supplied is a
    non-empty data URL with a non-empty mime type, the context captured for
    the chat is equal, part by part, to the parts of the analysis request. *)
Theorem X19_context_matches_request_on_data_urls (text : jsstring)
    (fileData : option FileData) (audioData : option AudioData) :
  dataUrlWithType fileData = true -> dataUrlWithType audioData = true ->
  (nonEmpty text = true \/ fileData <> None \/ audioData <> None) ->
  [mkContent user (App.contextParts text fileData audioData)] =
  analysisRequest text fileData audioData.
Proof.
  intros Hf Ha Hsome. unfold analysisRequest. f_equal. f_equal.
  apply context_agrees_on_data_urls; assumption.
Qed.

Lemma X19_context_matches_request_witness :
  [mkContent user
     (App.contextParts (js "check this river")
        (Some (mkMedia (js "data:image/png;base64,AAAA") (js "image/png")))
        None)] =
  analysisRequest (js "check this river")
    (Some (mkMedia (js "data:image/png;base64,AAAA") (js "image/png"))) None.
Proof.
  apply (X19_context_matches_request_on_data_urls (js "check this river")
           (Some (mkMedia (js "data:image/png;base64,AAAA") (js "image/png")))
           None); [reflexivity | reflexivity | left; reflexivity].
Defined.

(** X22. After an analysis whose stream ended normally, the request of the
    first follow-up has exactly three turns: the user turn with the captured
    context, a model turn whose only part is the whole streamed analysis
    text, and the user turn with the new message. *)
Theorem X22_first_follow_up_replays_analysis (time : nat -> Z)
    (API_KEY : option jsstring) (api : Provider.Api) (text : jsstring)
    (fileData : option FileData) (audioData : option AudioData)
    (message : jsstring) (w : App.World) :
  present API_KEY = true ->
  Provider.failure (api (analysisRequest text fileData audioData)) = None ->
  let chunks := Provider.chunks (api (analysisRequest text fileData audioData)) in
  let w1 := exec (App.handleAnalyze API_KEY api text fileData audioData) w in
  exists analysis,
    App.result w1 = Some analysis /\
    continuationContents (priorTurns time w1 analysis) message
      (App.initialContextParts w1) =
    [ mkContent user (App.contextParts text fileData audioData);
      mkContent model [TextPart (streamedText chunks)];
      mkContent user [TextPart message] ].
Proof.
  intros Hkey Hok chunks w1. subst w1. rewrite handleAnalyze_final.
  fold chunks. rewrite Hkey.
  cbn [App.result App.initialContextParts]. eexists. split; [reflexivity|].
  unfold priorTurns. cbn [App.chatHistory App.ticks].
  rewrite continuationContents_shape.
  pose proof (contextParts_nonempty text fileData audioData) as Hne.
  destruct (App.contextParts text fileData audioData); [congruence|].
  destruct chunks; reflexivity.
Qed.

Lemma X22_first_follow_up_witness :
  exists analysis,
    App.result
      (exec (App.handleAnalyze exampleKey exampleApi (js "check this river")
               None None) exampleWorld) = Some analysis /\
    continuationContents
      (priorTurns Z.of_nat
         (exec (App.handleAnalyze exampleKey exampleApi (js "check this river")
                  None None) exampleWorld) analysis)
      (js "hello")
      (App.initialContextParts
         (exec (App.handleAnalyze exampleKey exampleApi (js "check this river")
                  None None) exampleWorld)) =
    [ mkContent user [TextPart (js "check this river")];
      mkContent model [TextPart (js "## Sources follow")];
      mkContent user [TextPart (js "hello")] ].
Proof.
  apply (X22_first_follow_up_replays_analysis Z.of_nat exampleKey exampleApi
           (js "check this river") None None (js "hello") exampleWorld);
    reflexivity.
Defined.
